(** * EthicalAds publisher client ([src/index.js]): a shallow embedding

    The client is a single JavaScript module.  Its pure routines (string
    handling, keyword extraction, the parameters of the request) are
    embedded as functions; its callbacks (the JSONP callback, the error
    listener of the script, the two interval timers and the visibility
    listener) are embedded as transformers of an explicit state, and the
    event loop of the browser is a list of events, delivered one after the
    other: the code runs on a single thread and a callback runs to its end.

    - Strings are [string], one [ascii] per code unit below 256.
    - A call that can throw returns a [Js.completion]; a promise is
      [Js.promise], pending, fulfilled or rejected.
    - The module variable [detectedKeywords] refers to an array in a store,
      so that "the same array" is the same reference.
    - What the code asks of its surroundings is an argument: the clock and
      the random numbers, the location, the HTML parser ([parse_html]), what
      [verge.inViewport] and [document.visibilityState] answer at a tick.
    - [detectABP] is in two parts: [Bootstrap.detectABP] keeps the two
      image requests that it starts, and the module [Abp] follows its
      variables through the events of the images and of the timeouts.
    - The [src] of an element is the attribute as it is written; what the
      browser gives when [src] is read back, the address resolved against
      the document, is an argument ([href]) of the one callback that reads
      it.
    - Left out: the field [options] of a placement (never read) and the
      click listeners of the hide buttons of [applyStyles]. *)

From Stdlib Require Import Ascii String.
From stdpp Require Import base numbers list strings gmap pretty sorting.

Local Open Scope string_scope.
Local Open Scope list_scope.

(** ** JavaScript strings *)

Module JsString.

Definition code (c : ascii) : N := N_of_ascii c.

(** [\s] of a regular expression, on code units below 256: TAB, LF, VT,
    FF, CR, SPACE and NBSP. *)
Definition is_space (c : ascii) : bool :=
  let n := code c in
  ((9 <=? n) && (n <=? 13) || (n =? 32) || (n =? 160))%N.

(** [String.prototype.toLowerCase] on code units below 256: A-Z and the
    Latin-1 capitals U+00C0-U+00DE (but the multiplication sign U+00D7). *)
Definition lower_char (c : ascii) : ascii :=
  let n := code c in
  if ((65 <=? n) && (n <=? 90) ||
      (192 <=? n) && (n <=? 222) && negb (n =? 215))%N
  then ascii_of_N (n + 32) else c.

Fixpoint toLowerCase (s : string) : string :=
  match s with
  | EmptyString => EmptyString
  | String c r => String (lower_char c) (toLowerCase r)
  end.

(** [s.split(sep)] for a separator of one code unit. *)
Fixpoint split (sep : ascii) (s : string) : list string :=
  match s with
  | EmptyString => [EmptyString]
  | String c r =>
      if Ascii.eqb c sep then EmptyString :: split sep r
      else match split sep r with
           | w :: ws => String c w :: ws
           | [] => [String c EmptyString]
           end
  end.

(** [s.split(/\s+/)]: the pieces between maximal runs of white space.
    [in_run] tells that the previous code unit was white space, so that
    the separator that is being read has already closed a piece. *)
Fixpoint split_ws_from (in_run : bool) (s : string) : list string :=
  match s with
  | EmptyString => [EmptyString]
  | String c r =>
      if is_space c then
        if in_run then split_ws_from true r
        else EmptyString :: split_ws_from true r
      else match split_ws_from false r with
           | w :: ws => String c w :: ws
           | [] => [String c EmptyString]
           end
  end.

Definition split_ws (s : string) : list string := split_ws_from false s.

(** No code unit of the string is white space. *)
Fixpoint no_space (s : string) : bool :=
  match s with
  | EmptyString => true
  | String c r => negb (is_space c) && no_space r
  end.

(** The code unit [sep] does not occur in the string. *)
Fixpoint free_of (sep : ascii) (s : string) : bool :=
  match s with
  | EmptyString => true
  | String c r => negb (Ascii.eqb c sep) && free_of sep r
  end.

(** [a.join(sep)] *)
Fixpoint join (sep : string) (a : list string) : string :=
  match a with
  | [] => EmptyString
  | [w] => w
  | w :: ws => w +:+ sep +:+ join sep ws
  end.

(** [s.trim()] *)
Fixpoint trim_start (s : string) : string :=
  match s with
  | String c r => if is_space c then trim_start r else s
  | EmptyString => EmptyString
  end.

Fixpoint trim_end (s : string) : string :=
  match s with
  | EmptyString => EmptyString
  | String c r =>
      match trim_end r with
      | EmptyString => if is_space c then EmptyString else String c EmptyString
      | r' => String c r'
      end
  end.

Definition trim (s : string) : string := trim_end (trim_start s).

(** [s.slice(0, n)] *)
Definition slice0 (n : nat) (s : string) : string := substring 0 n s.


(** [a.indexOf(x) >= 0] *)
Definition includes (x : string) (a : list string) : bool :=
  existsb (String.eqb x) a.

(** Decimal rendering of a non-negative integer, as [+] on a string and a
    number does. *)
Definition of_number (n : N) : string := pretty n.

(** A canonical array index: such keys of an object are enumerated first,
    whatever their insertion order. *)
Definition is_digit (c : ascii) : bool :=
  ((48 <=? code c) && (code c <=? 57))%N.

Fixpoint all_digits (s : string) : bool :=
  match s with
  | EmptyString => true
  | String c r => is_digit c && all_digits r
  end.

Definition is_array_index (s : string) : bool :=
  match s with
  | EmptyString => false
  | _ => all_digits s
  end.

End JsString.

(** ** Keyword extraction *)

Module Keywords.
Import JsString.

Definition KEYWORDS_entries : list (string * string) :=
  [ ("android", "android"); ("ios", "ios"); ("iphone", "ios");
    ("blockchain", "blockchain"); ("bitcoin", "bitcoin");
    ("ethereum", "ethereum"); ("hyperledger", "hyperledger");
    ("solidity", "solidity"); ("cryptography", "cryptography");
    ("security", "security"); ("infosec", "security");
    ("privacy", "privacy"); ("authentication", "authentication");
    ("authorization", "authorization"); ("otp", "otp"); ("2fa", "2fa");
    ("mfa", "mfa"); ("sms", "sms"); ("frontend", "frontend");
    ("backend", "backend"); ("full-stack", "backend");
    ("devops", "devops"); ("ai", "artificial-intelligence");
    ("nlp", "nlp"); ("ml", "machine-learning"); ("cloud", "cloud");
    ("api", "api"); ("docker", "docker"); ("kubernetes", "kubernetes");
    ("container", "containers"); ("containers", "containers");
    ("ansible", "ansible"); ("serverless", "serverless");
    ("openshift", "openshift"); ("terraform", "terraform");
    ("openid", "openid"); ("aws", "aws"); ("azure", "azure");
    ("gcp", "gcp"); ("linux", "linux"); ("ubuntu", "ubuntu");
    ("monitoring", "monitoring"); ("redis", "redis");
    ("rabbitmq", "rabbitmq"); ("nosql", "nosql");
    ("postgres", "postgresql"); ("postgresql", "postgresql");
    ("mysql", "mysql"); ("database", "database"); ("testing", "testing");
    ("pytest", "pytest"); ("lint", "lint"); ("linting", "lint");
    ("pylint", "pylint"); ("unittest", "unittest"); ("ci", "ci");
    ("cd", "cd"); ("tdd", "test-driven-development");
    ("elasticsearch", "elasticsearch"); ("lucene", "lucene");
    ("solr", "solr"); ("nginx", "nginx"); ("heroku", "heroku");
    ("spa", "spa");
    (* Frameworks and modules *)
    ("django", "django"); ("rails", "rails"); ("angular", "angular");
    ("angularjs", "angular"); ("laravel", "laravel");
    ("react", "reactjs"); ("reactjs", "reactjs");
    ("react-native", "reactjs"); ("jupyter", "jupyter");
    ("matplotlib", "matplotlib"); ("pytorch", "pytorch");
    ("pydata", "pydata"); ("pandas", "pandas"); ("numpy", "numpy");
    ("wsgi", "wsgi"); ("celery", "celery"); ("jinja", "jinja");
    ("jinja2", "jinja"); ("flask", "flask"); ("werkzeug", "werkzeug");
    ("oauth", "oauth"); ("vuejs", "vuejs"); ("vue", "vuejs");
    ("tensorflow", "tensorflow"); ("tensor", "tensor");
    ("webpack", "webpack");
    (* Programming and markup languages *)
    ("dotnet", "dotnet"); (".net", "dotnet"); ("c#", "c-sharp");
    ("c++", "cplusplus"); ("erlang", "erlang"); ("f#", "fsharp");
    ("golang", "golang"); ("haskell", "haskell"); ("java", "java");
    ("javascript", "javascript"); ("julia", "julia");
    ("kotlin", "kotlin"); ("obj-c", "obj-c"); ("objective-c", "obj-c");
    ("php", "php"); ("python", "python"); ("perl", "perl");
    ("sql", "sql"); ("ruby", "ruby"); ("rust", "rust");
    ("scala", "scala"); ("swift", "swift"); ("css", "css");
    ("scss", "scss"); ("typescript", "typescript"); ("redux", "redux") ].

(** The object literal [KEYWORDS]: [KEYWORDS !! w] is [Some t] exactly when
    [KEYWORDS.hasOwnProperty(w)], and then [KEYWORDS[w]] is [t]. *)
Definition KEYWORDS : gmap string string := list_to_map KEYWORDS_entries.
Arguments KEYWORDS : simpl never.

Definition MAX_WORDS_ANALYZED : N := 9999.
Definition MAX_KEYWORDS : nat := 3.
Definition MIN_KEYWORD_OCCURRENCES : N := 2.

(** [w.replace(wordTrimmer, "$1")] with
    [wordTrimmer = /^[\('"]?(.*?)[,\.\?\!:;\)'"]?$/g].  The expression has
    neither the flag [s] nor the flag [m]: [.] matches no line terminator
    and [$] only the end of the string, so that a string that holds a line
    feed or a carriage return is not matched and is returned whole.  On
    any other string there is one match, the whole string: the optional
    opening class is greedy and takes a first code unit of the class; the
    lazy group then stops as soon as what is left is at most one code unit
    of the closing class. *)
Definition double_quote : ascii := ascii_of_N 34.

Definition opening (c : ascii) : bool :=
  (Ascii.eqb c "(" || Ascii.eqb c "'" || Ascii.eqb c double_quote)%char.

Definition closing (c : ascii) : bool :=
  (Ascii.eqb c "," || Ascii.eqb c "." || Ascii.eqb c "?" || Ascii.eqb c "!"
   || Ascii.eqb c ":" || Ascii.eqb c ";" || Ascii.eqb c ")"
   || Ascii.eqb c "'" || Ascii.eqb c double_quote)%char.

(** The line terminators among the code units below 256. *)
Definition line_terminator (c : ascii) : bool :=
  ((code c =? 10) || (code c =? 13))%N.

Fixpoint line_free (s : string) : bool :=
  match s with
  | EmptyString => true
  | String c r => negb (line_terminator c) && line_free r
  end.

Fixpoint strip_closing (s : string) : string :=
  match s with
  | EmptyString => EmptyString
  | String c EmptyString => if closing c then EmptyString else s
  | String c r => String c (strip_closing r)
  end.

Definition wordTrimmer (w : string) : string :=
  if line_free w then
    match w with
    | String c r => if opening c then strip_closing r else strip_closing w
    | EmptyString => EmptyString
    end
  else w.

Definition normalize (w : string) : string := toLowerCase (wordTrimmer w).

(** [keywordHist]: an object used as a map from tag to count.  Its keys
    are enumerated by [Object.entries] in insertion order, so it is kept as
    an association list with one entry per key. *)
Definition hist := list (string * N).

Fixpoint hist_get (k : string) (h : hist) : option N :=
  match h with
  | [] => None
  | (k', n) :: r => if String.eqb k' k then Some n else hist_get k r
  end.

(** [h[k] = v] *)
Fixpoint hist_set (k : string) (v : N) (h : hist) : hist :=
  match h with
  | [] => [(k, v)]
  | (k', n) :: r =>
      if String.eqb k' k then (k', v) :: r else (k', n) :: hist_set k v r
  end.

(** [(h[k] || 0)] *)
Definition hist_get_or_0 (k : string) (h : hist) : N :=
  match hist_get k h with
  | Some n => if (n =? 0)%N then 0%N else n
  | None => 0%N
  end.

(** The body of the [for] loop. *)
Definition count_word (w : string) (keywordHist : hist) : hist :=
  let word := normalize w in
  match KEYWORDS !! word with
  | Some tag => hist_set tag (hist_get_or_0 tag keywordHist + 1)%N keywordHist
  | None => keywordHist
  end.

(** [for (let x = 0; x < words.length && x < MAX_WORDS_ANALYZED; x++)]:
    [words] is what is left of the array from index [x] on. *)
Fixpoint scan (words : list string) (x : N) (keywordHist : hist) : hist :=
  match words with
  | [] => keywordHist
  | w :: rest =>
      if (x <? MAX_WORDS_ANALYZED)%N
      then scan rest (x + 1)%N (count_word w keywordHist)
      else keywordHist
  end.

(** [Array.prototype.sort] is stable; the comparator puts the larger count
    first and calls equal counts equal. *)
Definition compare_entries (a b : string * N) : Z :=
  if (b.2 <? a.2)%N then (-1)%Z
  else if (a.2 <? b.2)%N then 1%Z
  else 0%Z.

Fixpoint insert_entry (a : string * N) (l : list (string * N)) :=
  match l with
  | [] => [a]
  | b :: r =>
      if (compare_entries a b <=? 0)%Z then a :: b :: r
      else b :: insert_entry a r
  end.

Fixpoint sort_entries (l : list (string * N)) : list (string * N) :=
  match l with
  | [] => []
  | a :: r => insert_entry a (sort_entries r)
  end.

(** The scan of the page: everything of [detectKeywords] after the test of
    the cache and before the assignment to it. *)
Definition scan_page (textContent : string) : list string :=
  let words := split_ws textContent in
  let keywordHist := scan words 0%N [] in
  map fst
    (take MAX_KEYWORDS
       (sort_entries
          (List.filter (fun a => (MIN_KEYWORD_OCCURRENCES <=? a.2)%N)
             keywordHist))).

(** The module variable [detectedKeywords] holds [null] or a reference to
    an array; [arrays] is the store of the arrays allocated so far, a
    reference being an index into it. *)
Record store := Store {
  arrays : list (list string);
  detectedKeywords : option nat
}.

Definition initial_store : store := Store [] None.

Definition deref (r : nat) (st : store) : list string :=
  default [] (arrays st !! r).

(** [detectKeywords()]: the reference returned and the store afterwards. *)
Definition detectKeywords (st : store) (textContent : string) : nat * store :=
  match detectedKeywords st with
  | Some r => (r, st)
  | None =>
      let keywords := scan_page textContent in
      let r := length (arrays st) in
      (r, Store (arrays st ++ [keywords]) (Some r))
  end.

(** What the extraction is measured against: the number of analysed words that stand
    for a tag. *)
Definition analyzed_words (textContent : string) : list string :=
  take (N.to_nat MAX_WORDS_ANALYZED) (split_ws textContent).

Definition stands_for (tag : string) (w : string) : bool :=
  match KEYWORDS !! normalize w with
  | Some t => String.eqb t tag
  | None => false
  end.

Definition occurrences (tag : string) (words : list string) : N :=
  N.of_nat (length (List.filter (stands_for tag) words)).

(** The count that the histogram holds for a tag, [0] when it has none. *)
Definition tally tag h : N := default 0%N (hist_get tag h).

(** Every call of a list of calls, each on the text that the page then
    has: the references returned and the store at the end. *)
Fixpoint detect_all (st : store) (texts : list string) : list nat * store :=
  match texts with
  | [] => ([], st)
  | text :: rest =>
      let '(r, st) := detectKeywords st text in
      let '(rs, st) := detect_all st rest in
      (r :: rs, st)
  end.

Arguments stands_for : simpl never.
Arguments count_word : simpl never.
Arguments scan_page : simpl never.

End Keywords.


(** ** JavaScript values, completions and promises *)

Local Set Warnings "-register-all".

Module Js.
Import JsString.

(** DOM nodes: text, or an element with its attributes and children.
    [className] is the [class] attribute and [id] the [id] attribute. *)
Inductive node :=
| Text (data : string)
| Elem (tag : string) (attrs : gmap string string) (children : list node).

Inductive value :=
| Undefined
| Null
| Bool (b : bool)
| Number (n : Z)
| Str (s : string)
| Object (props : list (string * value))
| DomNode (n : node).

(** ToBoolean *)
Definition truthy (v : value) : bool :=
  match v with
  | Undefined | Null => false
  | Bool b => b
  | Number n => negb (n =? 0)%Z
  | Str s => negb (String.eqb s "")
  | Object _ | DomNode _ => true
  end.

Inductive error :=
| TypeError (message : string)
| Error (message : string)
| EthicalAdsWarning (message : string).

(** [class EthicalAdsWarning extends Error {}] *)
Definition instanceof_Error (e : error) : bool := true.

Definition instanceof_EthicalAdsWarning (e : error) : bool :=
  match e with EthicalAdsWarning _ => true | _ => false end.

Definition message (e : error) : string :=
  match e with TypeError m | Error m | EthicalAdsWarning m => m end.

(** How a call ends: with a value or with an exception. *)
Inductive completion (A : Type) :=
| Returned (a : A)
| Thrown (e : error).
Arguments Returned {A} a.
Arguments Thrown {A} e.

Definition bind {A B} (c : completion A) (k : A -> completion B)
  : completion B :=
  match c with
  | Returned a => k a
  | Thrown e => Thrown e
  end.

Fixpoint lookup_prop (k : string) (props : list (string * value))
  : option value :=
  match props with
  | [] => None
  | (k', v) :: r => if String.eqb k' k then Some v else lookup_prop k r
  end.

(** [v.k] for a name [k] that no prototype defines: reading a property of
    [undefined] or [null] throws, a missing property reads [undefined]. *)
Definition get (v : value) (k : string) : completion value :=
  match v with
  | Undefined | Null =>
      Thrown (TypeError ("Cannot read properties of null or undefined: " +:+ k))
  | Object props => Returned (default Undefined (lookup_prop k props))
  | _ => Returned Undefined
  end.

(** ToString, for the values that can stand where a string is expected. *)
Definition to_string (v : value) : string :=
  match v with
  | Undefined => "undefined"
  | Null => "null"
  | Bool true => "true"
  | Bool false => "false"
  | Number (Zneg p) => "-" +:+ of_number (Npos p)
  | Number n => of_number (Z.to_N n)
  | Str s => s
  | Object _ => "[object Object]"
  | DomNode _ => "[object HTMLElement]"
  end.

(** The state of a promise.  [resolve] and [reject] settle a pending
    promise and do nothing to a settled one. *)
Inductive promise (A : Type) :=
| Pending
| Fulfilled (v : A)
| Rejected (e : error).
Arguments Pending {A}.
Arguments Fulfilled {A} v.
Arguments Rejected {A} e.

Definition resolve {A} (v : A) (p : promise A) : promise A :=
  match p with Pending => Fulfilled v | _ => p end.

Definition reject {A} (e : error) (p : promise A) : promise A :=
  match p with Pending => Rejected e | _ => p end.

Definition is_rejected {A} (p : promise A) : bool :=
  match p with Rejected _ => true | _ => false end.

End Js.

Notation "x <- c ;; k" := (Js.bind c (fun x => k))
(at level 100, c at next level, right associativity, only parsing).

(** ** The DOM elements the client reads and writes *)

Module Dom.
Import JsString Js.

Record element := Element {
  tag : string;
  attrs : gmap string string;
  children : list node
}.

(** [e.getAttribute(k)]: [None] stands for [null]. *)
Definition getAttribute (e : element) (k : string) : option string :=
  attrs e !! k.

Definition setAttribute (e : element) (k v : string) : element :=
  Element (tag e) (<[k := v]> (attrs e)) (children e).

Definition hasAttribute (e : element) (k : string) : bool :=
  bool_decide (is_Some (attrs e !! k)).

(** [e.className] and [e.id] reflect attributes and read as the empty
    string when the attribute is absent. *)
Definition className (e : element) : string := default "" (attrs e !! "class").
Definition id (e : element) : string := default "" (attrs e !! "id").

Definition set_className (e : element) (c : string) : element :=
  setAttribute e "class" c.

(** The class list of an element as the DOM defines it ([e.classList]):
    the pieces of the class attribute between ASCII white space (TAB, LF,
    FF, CR and SPACE), the empty ones left out (a class that is written
    twice is listed twice here).  The client does not read it; it is what
    a style sheet and [classList.contains] go by. *)
Definition is_ascii_whitespace (c : ascii) : bool :=
  let n := code c in
  ((n =? 9) || (n =? 10) || (n =? 12) || (n =? 13) || (n =? 32))%N.

Fixpoint split_on (sep : ascii -> bool) (s : string) : list string :=
  match s with
  | EmptyString => [EmptyString]
  | String c r =>
      if sep c then EmptyString :: split_on sep r
      else match split_on sep r with
           | w :: ws => String c w :: ws
           | [] => [String c EmptyString]
           end
  end.

Definition classList (e : element) : list string :=
  List.filter (fun w => negb (String.eqb w ""))
    (split_on is_ascii_whitespace (className e)).

(** The only ASCII white space of the string is SPACE. *)
Fixpoint spaces_only (s : string) : bool :=
  match s with
  | EmptyString => true
  | String c r =>
      (negb (is_ascii_whitespace c) || Ascii.eqb c " ") && spaces_only r
  end.

Definition appendChild (e : element) (n : node) : element :=
  Element (tag e) (attrs e) (children e ++ [n]).

(** [while (e.firstChild) e.removeChild(e.firstChild)] *)
Definition removeChildren (e : element) : element :=
  Element (tag e) (attrs e) [].

(** [n.appendChild(c)] on a node: only an element takes children. *)
Definition node_appendChild (n c : node) : completion node :=
  match n with
  | Elem t a cs => Returned (Elem t a (cs ++ [c]))
  | Text _ => Thrown (TypeError "HierarchyRequestError")
  end.

(** [document.createElement("img")] with its [src] and [className] set. *)
Definition pixel (src : string) : node :=
  Elem "img" {[ "src" := src; "class" := "ea-pixel" ]} [].

Definition is_pixel (n : node) : bool :=
  match n with
  | Elem t a _ => String.eqb t "img" && bool_decide (a !! "class" = Some "ea-pixel")
  | Text _ => false
  end.

Definition pixel_src (n : node) : option string :=
  match n with
  | Elem _ a _ => a !! "src"
  | Text _ => None
  end.

End Dom.

(** ** The [Placement] class *)

Module Placement.
Import JsString Js Dom.

Definition AD_CLIENT_VERSION : string := "1.6.2".
Definition AD_DECISION_URL : string :=
  "https://server.ethicalads.io/api/v1/decision/".
Definition AD_TYPES_VERSION : N := 1.
Definition ATTR_PREFIX : string := "data-ea-".
Definition ABP_DETECTION_PX : string :=
  "https://media.ethicalads.io/abp/px.gif".

Definition VIEW_TIME_INTERVAL : Z := 1.
Definition VIEW_TIME_MAX : Z := 5 * 60.

Inductive level := LogError | LogDebug.
Definition console := list (level * string).

(** The [options] argument of the constructor; [None] is a property that
    is absent (or [null] for the attributes read by [getAttribute]). *)
Record options := Options {
  opt_keywords : option (list string);
  opt_style : option string;
  opt_campaign_types : option (list string);
  opt_load_manually : bool;
  opt_force_ad : option string;
  opt_force_campaign : option string
}.

(** A placement.  [target] refers to the marker element by its position
    among the elements of the document. *)
Record t := Make {
  publisher : option string;
  ad_type : string;
  target : nat;
  style : option string;
  keywords : list string;
  load_manually : bool;
  force_ad : option string;
  force_campaign : option string;
  campaign_types : list string;
  view_time : Z;
  view_time_sent : bool;
  response : value
}.

Definition DEFAULT_CAMPAIGN_TYPES : list string :=
  ["paid"; "publisher-house"; "community"; "house"].

(** [constructor (publisher, ad_type, target, options)] *)
Definition new (publisher : option string) (ad_type : string) (target : nat)
    (o : options) : t :=
  let campaign_types := default [] (opt_campaign_types o) in
  let campaign_types :=
    if (length campaign_types =? 0)%nat then DEFAULT_CAMPAIGN_TYPES
    else campaign_types in
  {| publisher := publisher;
     ad_type := ad_type;
     target := target;
     style := opt_style o;
     keywords := default [] (opt_keywords o);
     load_manually := opt_load_manually o;
     force_ad := opt_force_ad o;
     force_campaign := opt_force_campaign o;
     campaign_types := campaign_types;
     view_time := 0;
     view_time_sent := false;
     response := Null |}.

(** [(attr || "").split("|").filter(word => word.length > 1)] *)
Definition pipe_list (attr : option string) : list string :=
  List.filter (fun word => (1 <? String.length word)%nat)
    (split "|" (default "" attr)).

(** ToBoolean of what [getAttribute] returns. *)
Definition attr_truthy (a : option string) : bool :=
  match a with
  | Some s => negb (String.eqb s "")
  | None => false
  end.

(** [static from_element(element)], for the element at position [target]:
    the element as it is left, what was written to the console, and the
    placement or [None] for [null]. *)
Definition from_element (target : nat) (element : Dom.element)
  : Dom.element * console * option t :=
  let publisher := getAttribute element (ATTR_PREFIX +:+ "publisher") in
  let ad_type := getAttribute element (ATTR_PREFIX +:+ "type") in
  let '(ad_type, element) :=
    if attr_truthy ad_type then (default "" ad_type, element)
    else ("image", setAttribute element (ATTR_PREFIX +:+ "type") "image") in
  let keywords := pipe_list (getAttribute element (ATTR_PREFIX +:+ "keywords")) in
  let campaign_types :=
    pipe_list (getAttribute element (ATTR_PREFIX +:+ "campaign-types")) in
  let load_manually :=
    bool_decide (getAttribute element (ATTR_PREFIX +:+ "manual") = Some "true") in
  let style := getAttribute element (ATTR_PREFIX +:+ "style") in
  let force_ad := getAttribute element (ATTR_PREFIX +:+ "force-ad") in
  let force_campaign := getAttribute element (ATTR_PREFIX +:+ "force-campaign") in
  let ad_type :=
    if String.eqb ad_type "image" || String.eqb ad_type "text"
    then ad_type +:+ "-v" +:+ of_number AD_TYPES_VERSION
    else ad_type in
  let classes := split " " (className element) in
  if includes "loaded" classes then
    (element, [(LogError, "EthicalAd already loaded.")], None)
  else
    (element, [],
     Some (new publisher ad_type target
             {| opt_keywords := Some keywords;
                opt_style := style;
                opt_campaign_types := Some campaign_types;
                opt_load_manually := load_manually;
                opt_force_ad := force_ad;
                opt_force_campaign := force_campaign |})).

(** The element as [from_element] leaves it: the attribute
    [data-ea-type] is given its default if it is missing or empty, and
    nothing else is written. *)
Definition with_default_type (element : Dom.element) : Dom.element :=
  if attr_truthy (getAttribute element (ATTR_PREFIX +:+ "type")) then element
  else setAttribute element (ATTR_PREFIX +:+ "type") "image".

(** *** [fetch()] *)

(** What [fetch] reads from its surroundings: [Date.now()],
    [Math.floor(Math.random() * 1000000)], [window.location.origin] and
    [window.location.pathname]. *)
Record clock := Clock {
  now : N;
  random : N;
  origin : string;
  pathname : string
}.

Definition callback_name (c : clock) : string :=
  "ad_" +:+ of_number (now c) +:+ "_" +:+ of_number (random c).

(** The object [params], as the list of its entries. *)
Definition params (p : t) (target_id : string) (c : clock)
  : list (string * string) :=
  let callback := callback_name c in
  let div_id := if negb (String.eqb target_id "") then target_id else callback in
  [ ("publisher", default "null" (publisher p));
    ("ad_types", ad_type p);
    ("div_ids", div_id);
    ("callback", callback);
    ("keywords", join "|" (keywords p));
    ("campaign_types", join "|" (campaign_types p));
    ("format", "jsonp");
    ("client_version", AD_CLIENT_VERSION);
    ("url", slice0 256 (origin c +:+ pathname c)) ]
  ++ (if attr_truthy (force_ad p)
      then [("force_ad", default "" (force_ad p))] else [])
  ++ (if attr_truthy (force_campaign p)
      then [("force_campaign", default "" (force_campaign p))] else []).


(** [URLSearchParams.prototype.toString]: the
    application/x-www-form-urlencoded serializer, the code units from 128
    on being sent as their two UTF-8 bytes. *)
Definition hex_digit (n : N) : ascii :=
  if (n <? 10)%N then ascii_of_N (48 + n) else ascii_of_N (55 + n).

Definition percent (byte : N) : string :=
  String "%" (String (hex_digit (byte / 16)) (String (hex_digit (byte mod 16)) "")).

Definition unreserved (n : N) : bool :=
  ((48 <=? n) && (n <=? 57) || (65 <=? n) && (n <=? 90)
   || (97 <=? n) && (n <=? 122)
   || (n =? 42) || (n =? 45) || (n =? 46) || (n =? 95))%N.

Definition encode_unit (c : ascii) : string :=
  let n := code c in
  if unreserved n then String c ""
  else if (n =? 32)%N then "+"
  else if (n <? 128)%N then percent n
  else percent (192 + n / 64) +:+ percent (128 + n mod 64).

Fixpoint form_encode (s : string) : string :=
  match s with
  | EmptyString => EmptyString
  | String c r => encode_unit c +:+ form_encode r
  end.

Definition query_string (ps : list (string * string)) : string :=
  join "&" (map (fun kv => form_encode kv.1 +:+ "=" +:+ form_encode kv.2) ps).

(** The script element that [fetch] appends to the head of the document:
    one request to the decision service.  Its [src] is the serialisation
    of [new URL(AD_DECISION_URL + "?" + url_params.toString())], which is
    that string: the form encoding leaves nothing for the URL parser to
    encode. *)
Record request := Request {
  callback : string;
  query : list (string * string);
  src : string
}.

Definition fetch_request (p : t) (target_id : string) (c : clock) : request :=
  let ps := params p target_id c in
  {| callback := callback_name c;
     query := ps;
     src := AD_DECISION_URL +:+ "?" +:+ query_string ps |}.

(** The promise that [fetch] returns, with the placement whose [response]
    the callback writes. *)
Record fetching := Fetching {
  self : t;
  settled : promise value
}.

Definition fetch_start (p : t) : fetching := Fetching p Pending.

Definition set_response (p : t) (r : value) : t :=
  {| publisher := publisher p; ad_type := ad_type p; target := target p;
     style := style p; keywords := keywords p;
     load_manually := load_manually p; force_ad := force_ad p;
     force_campaign := force_campaign p;
     campaign_types := campaign_types p; view_time := view_time p;
     view_time_sent := view_time_sent p; response := r |}.

(** [a && b], where [b] is evaluated only if [a] is truthy. *)
Definition and_then (a : completion value) (b : completion value)
  : completion value :=
  x <- a ;; if truthy x then b else Returned x.

(** [window[callback] = (response) => { ... }].  [parse_html s] is the list
    of child nodes of a [div] whose [innerHTML] was set to [s]. *)
Definition window_callback (parse_html : string -> list node)
    (f : fetching) (response : value) : completion fetching :=
  ok <- and_then (and_then (Returned response) (get response "html"))
                 (get response "view_url") ;;
  if truthy ok then
    html <- get response "html" ;;
    let firstChild :=
      match parse_html (to_string html) with
      | n :: _ => DomNode n
      | [] => Null
      end in
    Returned (Fetching (set_response (self f) response)
                       (resolve firstChild (settled f)))
  else
    Returned (Fetching (self f) (resolve Null (settled f))).

(** [script.addEventListener("error", (err) => { return resolve(); })] *)
Definition script_error_listener (f : fetching) : completion fetching :=
  Returned (Fetching (self f) (resolve Undefined (settled f))).

(** What the browser does with the injected script: it fails to load it
    and fires [error], or it runs it, and the script calls the callback
    with each of [responses] in turn. *)
Inductive script_outcome :=
| LoadError
| Loaded (responses : list value).

Definition deliver (h : fetching -> completion fetching) (f : fetching)
  : fetching * option error :=
  match h f with
  | Returned f' => (f', None)
  | Thrown e => (f, Some e)
  end.

(** The fetch after the browser is done with the script, and the
    exceptions that the handlers let out. *)
Fixpoint call_all (parse_html : string -> list node) (f : fetching)
    (responses : list value) : fetching * list error :=
  match responses with
  | [] => (f, [])
  | r :: rest =>
      let '(f1, e1) := deliver (fun f => window_callback parse_html f r) f in
      let '(f2, e2) := call_all parse_html f1 rest in
      (f2, option_list e1 ++ e2)
  end.

Definition fetch (parse_html : string -> list node) (p : t)
    (o : script_outcome) : fetching * list error :=
  match o with
  | LoadError =>
      let '(f, e) := deliver script_error_listener (fetch_start p) in
      (f, option_list e)
  | Loaded responses => call_all parse_html (fetch_start p) responses
  end.

(** *** [load()]: the two [then] callbacks *)

Definition times_sign : string := String (ascii_of_N 215) "".

(** [applyStyles(element)] *)
Definition applyStyles (p : t) (element : node) : completion node :=
  element <-
    (if bool_decide (style p = Some "stickybox") then
       node_appendChild element
         (Elem "div" {[ "class" := "ea-stickybox-hide" ]} [Text times_sign])
     else Returned element) ;;
  if bool_decide (style p = Some "fixedfooter") then
    node_appendChild element
      (Elem "div" {[ "class" := "ea-fixedfooter-hide" ]}
         [Elem "span" ∅ [Text "Close Ad"]])
  else Returned element.

(** The first callback: the target element as it is left. *)
Definition load_show (p : t) (target_el : Dom.element) (element : value)
  : completion Dom.element :=
  match element with
  | Undefined => Thrown (EthicalAdsWarning "Ad decision request blocked")
  | _ =>
      if negb (truthy element) then Thrown (EthicalAdsWarning "No ads to show.")
      else
        let classes := className target_el +:+ " loaded" in
        let target_el := set_className target_el (trim classes) in
        let target_el := removeChildren target_el in
        match element with
        | DomNode n =>
            n <- applyStyles p n ;;
            Returned (appendChild target_el n)
        | _ => Thrown (TypeError "parameter 1 is not of type 'Node'")
        end
  end.

(** The target element as the first callback leaves it, whether it returns
    or throws: the class and the children are written before
    [applyStyles] is called, so an exception of [applyStyles] or of
    [appendChild] finds them written. *)
Definition load_show_dom (p : t) (target_el : Dom.element) (element : value)
  : Dom.element :=
  match element with
  | Undefined => target_el
  | _ =>
      if negb (truthy element) then target_el
      else
        let classes := className target_el +:+ " loaded" in
        let emptied := removeChildren (set_className target_el (trim classes)) in
        match element with
        | DomNode n =>
            match applyStyles p n with
            | Returned n => appendChild emptied n
            | Thrown _ => emptied
            end
        | _ => emptied
        end
  end.

(** The response is one that the callback takes for an ad: it is truthy and
    so are its [html] and its [view_url]. *)
Definition well_formed (response : value) : bool :=
  truthy response &&
  match get response "html", get response "view_url" with
  | Returned html, Returned view_url => truthy html && truthy view_url
  | _, _ => false
  end.

(** The response lacks the field [k]: it has no such property, or a falsy
    one ([null], [undefined], the empty string, [0], [false]); [null] and
    [undefined] lack every field. *)
Definition lacks (response : value) (k : string) : bool :=
  match get response k with
  | Returned v => negb (truthy v)
  | Thrown _ => true
  end.

Definition is_node (v : value) : bool :=
  match v with DomNode _ => true | _ => false end.

(** The style is one that [applyStyles] knows. *)
Definition styled (p : t) : bool :=
  bool_decide (style p = Some "stickybox")
  || bool_decide (style p = Some "fixedfooter").

End Placement.

(** ** Viewport and view-time tracking: the second callback of [load()] *)

Module Tracker.
Import JsString Js Dom Placement.

(** [document.visibilityState] *)
Inductive visibility := visible | hidden | prerender | unloaded.

Definition visibility_eqb (a b : visibility) : bool :=
  match a, b with
  | visible, visible | hidden, hidden
  | prerender, prerender | unloaded, unloaded => true
  | _, _ => false
  end.

(** What the three callbacks close over and what they write: the
    placement, its target element, the module variable [uplifted], the two
    interval handles (true while the interval is set) and the registration
    of the listener. *)
Record state := State {
  placement : Placement.t;
  target_el : Dom.element;
  uplifted : bool;
  viewport_detection : bool;
  view_time_counter : bool;
  visibility_change_listener : bool
}.

Definition set_view_time (p : Placement.t) (v : Z) : Placement.t :=
  {| publisher := publisher p; ad_type := ad_type p; target := target p;
     style := style p; keywords := keywords p;
     load_manually := load_manually p; force_ad := force_ad p;
     force_campaign := force_campaign p;
     campaign_types := campaign_types p; view_time := v;
     view_time_sent := view_time_sent p; response := response p |}.

Definition set_view_time_sent (p : Placement.t) (b : bool) : Placement.t :=
  {| publisher := publisher p; ad_type := ad_type p; target := target p;
     style := style p; keywords := keywords p;
     load_manually := load_manually p; force_ad := force_ad p;
     force_campaign := force_campaign p;
     campaign_types := campaign_types p; view_time := view_time p;
     view_time_sent := b; response := response p |}.

(** The state in which the second callback of [load()] leaves things: both
    intervals set and the listener registered. *)
Definition start (p : Placement.t) (el : Dom.element) (uplifted : bool)
  : state :=
  State p el uplifted true true true.

(** [inViewport(element)]; [in_view] is what [verge.inViewport(element,
    VIEWPORT_FUDGE_FACTOR)] answers and [vis] is
    [document.visibilityState]. *)
Definition inViewport (p : Placement.t) (in_view : bool) (vis : visibility)
  : completion bool :=
  c <- and_then (Returned (response p)) (get (response p) "view_url") ;;
  Returned (truthy c && in_view && visibility_eqb vis visible).

(** The callback of the interval [viewport_detection].  [pixel.src = x]
    writes the attribute; [pixel.src += "?uplift=true"] reads [pixel.src]
    back first, and what it reads is not [x] but [href x]: the address
    that the browser resolves [x] to. *)
Definition viewport_detection_tick (in_view : bool) (vis : visibility)
    (href : string -> string) (s : state) : completion state :=
  seen <- inViewport (placement s) in_view vis ;;
  if seen then
    view_url <- get (response (placement s)) "view_url" ;;
    let src := to_string view_url in
    let src := if uplifted s then href src +:+ "?uplift=true" else src in
    Returned (State (placement s) (appendChild (target_el s) (pixel src))
                (uplifted s) false (view_time_counter s)
                (visibility_change_listener s))
  else Returned s.

(** The callback of the interval [view_time_counter]. *)
Definition view_time_counter_tick (in_view : bool) (vis : visibility)
    (s : state) : completion state :=
  if view_time_sent (placement s) then
    Returned (State (placement s) (target_el s) (uplifted s)
                (viewport_detection s) false (visibility_change_listener s))
  else
    seen <- inViewport (placement s) in_view vis ;;
    if seen then
      let p := set_view_time (placement s)
                 (view_time (placement s) + VIEW_TIME_INTERVAL) in
      Returned (State p (target_el s) (uplifted s) (viewport_detection s)
                  (if (VIEW_TIME_MAX <=? view_time p)%Z then false
                   else view_time_counter s)
                  (visibility_change_listener s))
    else Returned s.

(** The listener of [visibilitychange]. *)
Definition visibility_change (vis : visibility) (s : state)
  : completion state :=
  let p := placement s in
  if (view_time p <=? 0)%Z || view_time_sent p then Returned s
  else
    view_time_url <- get (response p) "view_time_url" ;;
    if negb (truthy view_time_url) then Returned s
    else if visibility_eqb vis hidden || visibility_eqb vis unloaded then
      let src := to_string view_time_url +:+ "?view_time="
                 +:+ to_string (Number (view_time p)) in
      Returned (State (set_view_time_sent p true)
                  (appendChild (target_el s) (pixel src))
                  (uplifted s) (viewport_detection s) (view_time_counter s)
                  false)
    else Returned s.

(** What the event loop delivers, with what the browser answers to the
    callback: [verge.inViewport], [document.visibilityState] and, for the
    view pixel, the address that reading its [src] gives. *)
Inductive event :=
| ViewportTick (in_view : bool) (vis : visibility) (href : string -> string)
| ViewTimeTick (in_view : bool) (vis : visibility)
| VisibilityChange (vis : visibility)
| AbpDetected (usesABP : bool).

(** The callback that an event stands for, called whether or not it is
    still scheduled. *)
Definition call (e : event) (s : state) : completion state :=
  match e with
  | ViewportTick in_view vis href => viewport_detection_tick in_view vis href s
  | ViewTimeTick in_view vis => view_time_counter_tick in_view vis s
  | VisibilityChange vis => visibility_change vis s
  | AbpDetected usesABP =>
      Returned (State (placement s) (target_el s) usesABP
                  (viewport_detection s) (view_time_counter s)
                  (visibility_change_listener s))
  end.

(** An exception in a callback is reported by the browser and the state is
    what it was: each callback throws, if at all, before its first write. *)
Definition force (c : completion state) (s : state) : state :=
  match c with
  | Returned s' => s'
  | Thrown _ => s
  end.

(** The browser calls a callback only while its interval is set or its
    listener registered. *)
Definition scheduled (e : event) (s : state) : bool :=
  match e with
  | ViewportTick _ _ _ => viewport_detection s
  | ViewTimeTick _ _ => view_time_counter s
  | VisibilityChange _ => visibility_change_listener s
  | AbpDetected _ => true
  end.

Definition step (s : state) (e : event) : state :=
  if scheduled e s then force (call e s) s else s.

Definition run (s : state) (es : list event) : state := fold_left step es s.

(** Every callback called, scheduled or not: any number of timers and
    listeners on the same placement. *)
Definition race_step (s : state) (e : event) : state := force (call e s) s.

(** The states that a run goes through, the first one included. *)
Fixpoint history (f : state -> event -> state) (s : state) (es : list event)
  : list state :=
  match es with
  | [] => [s]
  | e :: r => s :: history f (f s e) r
  end.

(** The number of times [view_time_sent] goes from false to true along a
    list of states. *)
Fixpoint sent_transitions (h : list state) : nat :=
  match h with
  | s :: ((s' :: _) as r) =>
      (if negb (view_time_sent (placement s)) && view_time_sent (placement s')
       then 1 else 0) + sent_transitions r
  | _ => 0
  end.

(** The view pixel and the view-time pixel among the children of the
    target. *)
Definition pixels (s : state) : list string :=
  omap pixel_src (List.filter is_pixel (children (target_el s))).

(** The flag and the counter of the placement that is tracked. *)
Definition sent (s : state) : bool := view_time_sent (placement s).
Definition viewed (s : state) : Z := view_time (placement s).

(** The counter stays within the cap, and below it while its interval is
    set. *)
Definition capped (s : state) : Prop :=
  (0 <= viewed s <= VIEW_TIME_MAX)%Z /\
  (view_time_counter s = true -> (viewed s < VIEW_TIME_MAX)%Z).


End Tracker.

(** ** Bootstrap: [load_placements] and the promise [wait] *)

Module Bootstrap.
Import JsString Js Dom Placement.

(** What the module reads and writes outside of the placements: the
    elements of the document in document order, the text of the main
    content, the cache of [detectKeywords], the console, and the requests
    started: the scripts appended to the head (requests to the decision
    service) and the images of the AdBlock Plus probe. *)
Record world := World {
  elements : list Dom.element;
  textContent : string;
  keyword_store : Keywords.store;
  log : console;
  scripts : list request;
  images : list string
}.

(** What the surroundings answer: the clock and location read by the
    [fetch] of the element at each index, and the text of
    [Math.random() * 11]. *)
Record surroundings := Surroundings {
  clock_at : nat -> clock;
  abp_random : string
}.

Definition set_keywords (p : Placement.t) (k : list string) : Placement.t :=
  {| publisher := publisher p; ad_type := ad_type p; target := target p;
     style := style p; keywords := k;
     load_manually := load_manually p; force_ad := force_ad p;
     force_campaign := force_campaign p;
     campaign_types := campaign_types p; view_time := view_time p;
     view_time_sent := view_time_sent p; response := response p |}.

(** [document.querySelectorAll("[data-ea-publisher]")]: the positions of
    the marker elements. *)
Fixpoint markers_from (i : nat) (els : list Dom.element) : list nat :=
  match els with
  | [] => []
  | e :: r =>
      if hasAttribute e (ATTR_PREFIX +:+ "publisher")
      then i :: markers_from (S i) r
      else markers_from (S i) r
  end.

Definition querySelectorAll_markers (w : world) : list nat :=
  markers_from 0 (elements w).

(** [detectABP(px, callback)], as far as it starts requests: the two
    images.  What their loading makes of [uplifted] is an event of the
    tracker. *)
Definition detectABP (s : surroundings) (px : string) (w : world) : world :=
  let img n := px +:+ "?ch=" +:+ n +:+ "&rn=" +:+ abp_random s in
  World (elements w) (textContent w) (keyword_store w) (log w) (scripts w)
    (images w ++ [img "1"; img "2"]).

(** [load()] up to the promise that [fetch()] returns: the keywords are
    detected and the script is appended. *)
Definition load_begin (c : clock) (p : Placement.t) (w : world)
  : Placement.t * world :=
  let '(r, st) := Keywords.detectKeywords (keyword_store w) (textContent w) in
  let p := set_keywords p (keywords p ++ Keywords.deref r st) in
  let target_id := from_option Dom.id "" (elements w !! target p) in
  (p, World (elements w) (textContent w) st (log w)
        (scripts w ++ [fetch_request p target_id c]) (images w)).

(** An entry of the array given to [Promise.all]: the promise of a
    [load()] with its placement, or [null]. *)
Inductive item :=
| Loading (p : Placement.t) (outcome : promise value)
| NotLoading.

(** The callback of [elements.map]. *)
Definition load_element (s : surroundings) (force_load : bool)
    (index : nat) (ref : nat) (w : world) : item * world :=
  match elements w !! ref with
  | None => (NotLoading, w)
  | Some element =>
      let '(element, out, placement) := from_element ref element in
      let w := World (<[ref := element]> (elements w)) (textContent w)
                 (keyword_store w) (log w ++ out) (scripts w) (images w) in
      let w :=
        if (index =? 0)%nat && bool_decide (is_Some placement)
           && negb force_load
        then detectABP s ABP_DETECTION_PX w else w in
      match placement with
      | Some p =>
          if force_load || negb (load_manually p) then
            let '(p, w) := load_begin (clock_at s index) p w in
            (Loading p Pending, w)
          else (NotLoading, w)
      | None => (NotLoading, w)
      end
  end.

Fixpoint map_elements (s : surroundings) (force_load : bool) (index : nat)
    (refs : list nat) (w : world) : list item * world :=
  match refs with
  | [] => ([], w)
  | ref :: rest =>
      let '(it, w) := load_element s force_load index ref w in
      let '(its, w) := map_elements s force_load (S index) rest w in
      (it :: its, w)
  end.

(** [load_placements(force_load)]: it throws, or it returns the promise of
    [Promise.all], here the array that the promise is made from. *)
Definition load_placements (s : surroundings) (force_load : bool) (w : world)
  : completion (list item) * world :=
  let elements := querySelectorAll_markers w in
  if (length elements =? 0)%nat then
    (Thrown (Error "No ad placements found."), w)
  else
    let '(items, w) := map_elements s force_load 0 elements w in
    (Returned items, w).

(** The exported [load]: [console.debug("Loading placements manually")]
    and [load_placements(true)], whose promise is dropped and whose
    exception goes to the caller. *)
Definition load (s : surroundings) (w : world) : completion unit * world :=
  let w := World (elements w) (textContent w) (keyword_store w)
             (log w ++ [(LogDebug, "Loading placements manually")])
             (scripts w) (images w) in
  match load_placements s true w with
  | (Returned _, w) => (Returned tt, w)
  | (Thrown e, w) => (Thrown e, w)
  end.

(** *** The promises *)

(** The promise of [load()] once its [fetch()] has settled with
    [element]: the first callback shows the ad or throws, the second one
    starts the tracking and returns nothing.  When the first callback
    throws, the target is left as the callback had written it by then. *)
Definition load_settle (p : Placement.t) (element : value) (w : world)
  : promise value * world :=
  match elements w !! target p with
  | None => (Rejected (TypeError "target"), w)
  | Some el =>
      let shown el' :=
        World (<[target p := el']> (elements w)) (textContent w)
          (keyword_store w) (log w) (scripts w) (images w) in
      match load_show p el element with
      | Returned el' => (Fulfilled Undefined, shown el')
      | Thrown e => (Rejected e, shown (load_show_dom p el element))
      end
  end.

(** The value of an entry for [Promise.all]: [None] while it is pending. *)
Definition item_promise (it : item) : promise value :=
  match it with
  | Loading _ o => o
  | NotLoading => Fulfilled Null
  end.

Fixpoint all_values (items : list item) : option (list value) :=
  match items with
  | [] => Some []
  | it :: r =>
      match item_promise it, all_values r with
      | Fulfilled v, Some vs => Some (v :: vs)
      | _, _ => None
      end
  end.

(** The page: the array of [Promise.all], its promise, the promise [wait],
    the exceptions that no handler took, and the world. *)
Record page := Page {
  items : list item;
  all : promise (list value);
  wait : promise (list value);
  unhandled : list error;
  the_world : world
}.

(** The callbacks on the promise of [load_placements()] in the executor
    of [wait]: [.then((placements) => { resolve(placements); })] and
    [.catch((err) => { resolve([]); ... })]. *)
Definition wait_handlers (all : promise (list value))
    (wait : promise (list value)) (w : world)
  : promise (list value) * world :=
  match all with
  | Pending => (wait, w)
  | Fulfilled placements => (resolve placements wait, w)
  | Rejected err =>
      let wait := resolve [] wait in
      let out :=
        if instanceof_Error err then
          if instanceof_EthicalAdsWarning err
          then [(LogDebug, message err)]
          else [(LogError, message err)]
        else [] in
      (wait, World (elements w) (textContent w) (keyword_store w)
               (log w ++ out) (scripts w) (images w))
  end.

(** [Promise.all(items)] when an entry has just settled as [o]. *)
Definition all_after (items : list item) (o : promise value)
    (all : promise (list value)) : promise (list value) :=
  match o with
  | Rejected e => reject e all
  | _ =>
      match all_values items with
      | Some vs => resolve vs all
      | None => all
      end
  end.

(** The executor of [wait], once the DOM is ready: [load_placements()] is
    called inside a callback of [wait_dom.then], which has no rejection
    handler. *)
Definition wait_start (s : surroundings) (w : world) : page :=
  match load_placements s false w with
  | (Thrown e, w) => Page [] Pending Pending [e] w
  | (Returned items, w) =>
      let all := all_after items Pending Pending in
      let '(wait, w) := wait_handlers all Pending w in
      Page items all wait [] w
  end.

(** The browser is done with the script of the entry at [index]. *)
Definition script_done (parse_html : string -> list node) (pg : page)
    (index : nat) (o : script_outcome) : page :=
  match items pg !! index with
  | Some (Loading p Pending) =>
      let '(f, errs) := fetch parse_html p o in
      match settled f with
      | Fulfilled element =>
          let '(outcome, w) := load_settle (self f) element (the_world pg) in
          let items := <[index := Loading (self f) outcome]> (items pg) in
          let all' := all_after items outcome (all pg) in
          let '(wait, w) :=
            match all pg with
            | Pending => wait_handlers all' (wait pg) w
            | _ => (wait pg, w)
            end in
          Page items all' wait (unhandled pg ++ errs) w
      | _ => Page (items pg) (all pg) (wait pg) (unhandled pg ++ errs)
               (the_world pg)
      end
  | _ => pg
  end.

Definition wait_run (parse_html : string -> list node) (s : surroundings)
    (w : world) (events : list (nat * script_outcome)) : page :=
  fold_left (fun pg ev => script_done parse_html pg ev.1 ev.2) events
    (wait_start s w).

(** What [wait] is once [Promise.all] is settled. *)
Definition wait_of (all : promise (list value)) : promise (list value) :=
  match all with
  | Pending => Pending
  | Fulfilled placements => Fulfilled placements
  | Rejected _ => Fulfilled []
  end.

(** The element at [ref] has the class [loaded], as [from_element] reads
    it. *)
Definition loaded_at (w : world) (ref : nat) : Prop :=
  exists el, elements w !! ref = Some el /\
             includes "loaded" (split " " (className el)) = true.

Definition is_loading (it : item) : bool :=
  match it with Loading _ _ => true | NotLoading => false end.

(** The number of entries that are promises of a [load()]. *)
Definition loading_count (its : list item) : nat :=
  length (List.filter is_loading its).

(** An entry that is fulfilled is fulfilled with [undefined]. *)
Definition item_plain (it : item) : Prop :=
  match it with
  | Loading _ (Fulfilled v) => v = Undefined
  | _ => True
  end.

(** The value is [undefined] or [null]: not a placement. *)
Definition no_placement (v : value) : Prop := v = Undefined \/ v = Null.

Definition page_plain (pg : page) : Prop :=
  Forall item_plain (items pg) /\
  forall vs, all pg = Fulfilled vs -> Forall no_placement vs.

End Bootstrap.

(** ** [detectABP]: the probe for the Acceptable Ads list *)

Module Abp.

(** The variables of a call of [detectABP], with what the browser still
    holds for it: the two images until each has fired [load] or [error], and
    the timeout, which holds the argument that [beforeCheck] will be called
    with (it is also the delay, in milliseconds).  [calls] lists the
    arguments that [callback] has been called with, and [waited] adds up the
    delays that have run out. *)
Record state := State {
  detected : bool;
  checksRemain : Z;
  error1 : bool;
  error2 : bool;
  img1_pending : bool;
  img2_pending : bool;
  timer : option Z;
  calls : list bool;
  waited : Z
}.

(** [function beforeCheck(callback, timeout)] *)
Definition beforeCheck (timeout : Z) (s : state) : state :=
  if (checksRemain s =? 0)%Z || (1000 <? timeout)%Z then
    State (detected s) (checksRemain s) (error1 s) (error2 s)
      (img1_pending s) (img2_pending s) None
      (calls s ++ [(checksRemain s =? 0)%Z && detected s]) (waited s)
  else
    State (detected s) (checksRemain s) (error1 s) (error2 s)
      (img1_pending s) (img2_pending s) (Some (timeout * 2)%Z)
      (calls s) (waited s).

(** [function checkImages()] *)
Definition checkImages (s : state) : state :=
  let remain := (checksRemain s - 1)%Z in
  if negb (remain =? 0)%Z then
    State (detected s) remain (error1 s) (error2 s)
      (img1_pending s) (img2_pending s) (timer s) (calls s) (waited s)
  else
    State (negb (error1 s) && error2 s) remain (error1 s) (error2 s)
      (img1_pending s) (img2_pending s) (timer s) (calls s) (waited s).

Definition set_error1 (s : state) : state :=
  State (detected s) (checksRemain s) true (error2 s)
    (img1_pending s) (img2_pending s) (timer s) (calls s) (waited s).

Definition set_error2 (s : state) : state :=
  State (detected s) (checksRemain s) (error1 s) true
    (img1_pending s) (img2_pending s) (timer s) (calls s) (waited s).

(** [detectABP(px, callback)] up to its return: the variables are set, the
    images are requested and [beforeCheck(callback, 250)] is called. *)
Definition start : state :=
  beforeCheck 250 (State false 2 false false true true None [] 0).

Inductive event :=
| Img1Load | Img1Error | Img2Load | Img2Error | Timeout.

(** An image fires one event and no more; a timeout that is not set does
    not fire. *)
Definition step (s : state) (e : event) : state :=
  let img1_done s :=
    State (detected s) (checksRemain s) (error1 s) (error2 s)
      false (img2_pending s) (timer s) (calls s) (waited s) in
  let img2_done s :=
    State (detected s) (checksRemain s) (error1 s) (error2 s)
      (img1_pending s) false (timer s) (calls s) (waited s) in
  match e with
  | Img1Load => if img1_pending s then checkImages (img1_done s) else s
  | Img1Error =>
      if img1_pending s then checkImages (set_error1 (img1_done s)) else s
  | Img2Load => if img2_pending s then checkImages (img2_done s) else s
  | Img2Error =>
      if img2_pending s then checkImages (set_error2 (img2_done s)) else s
  | Timeout =>
      match timer s with
      | Some timeout =>
          beforeCheck timeout
            (State (detected s) (checksRemain s) (error1 s) (error2 s)
               (img1_pending s) (img2_pending s) None (calls s)
               (waited s + timeout))
      | None => s
      end
  end.

Definition run (es : list event) : state := fold_left step es start.

Definition is_timeout (e : event) : bool :=
  match e with Timeout => true | _ => false end.

Definition timeouts (es : list event) : nat :=
  length (List.filter is_timeout es).


(** What ties the variables to the images that are still awaited. *)
Definition consistent (s : state) : Prop :=
  checksRemain s
  = ((if img1_pending s then 1 else 0) + (if img2_pending s then 1 else 0))%Z /\
  (img1_pending s = true -> error1 s = false) /\
  (img2_pending s = true -> error2 s = false) /\
  detected s = ((checksRemain s =? 0)%Z && negb (error1 s) && error2 s) /\
  (forall b, b ∈ calls s -> b = true ->
             checksRemain s = 0%Z /\ detected s = true).

(** Where the polling stands: the callback is not called yet and the
    timeout is set for the second, third or fourth call of [beforeCheck];
    or the callback has been called and no timeout is set. *)
Definition polling (s : state) : Prop :=
  (calls s = [] /\
   ((timer s = Some 500%Z /\ waited s = 0%Z) \/
    (timer s = Some 1000%Z /\ waited s = 500%Z) \/
    (timer s = Some 2000%Z /\ waited s = 1500%Z))) \/
  (length (calls s) = 1 /\ timer s = None /\
   (waited s = 500 \/ waited s = 1500 \/ waited s = 3500)%Z).

(** The number of timeouts that can still fire. *)
Definition polls_left (s : state) : nat :=
  match timer s with
  | Some timeout =>
      if (timeout <=? 500)%Z then 3 else if (timeout <=? 1000)%Z then 2 else 1
  | None => 0
  end.

End Abp.

(** ** A page to run the definitions on *)

Module Sample.
Import JsString Js Dom Placement.

Definition response : value :=
  Object [ ("id", Str "ad-1");
           ("html", Str "<div class='ea-content'>An ethical ad</div>");
           ("view_url", Str "https://server.ethicalads.io/proxy/view/1/");
           ("view_time_url",
            Str "https://server.ethicalads.io/proxy/view-time/1/") ].

Definition no_ad : value := Object [ ("id", Str "none") ].

(** A response with its markup and a [view_url] that is [null]. *)
Definition no_view_url : value :=
  Object [ ("html", Str "<div class='ea-content'>An ethical ad</div>");
           ("view_url", Null) ].

(** A stand-in for the HTML parser of the browser. *)
Definition parse_html (s : string) : list node :=
  if String.eqb s "" then [] else [Elem "div" {[ "class" := "ea-content" ]} [Text s]].

Definition marker : Dom.element :=
  Element "div" {[ "data-ea-publisher" := "docs"; "data-ea-type" := "text" ]} [].

Definition loaded_marker : Dom.element :=
  Element "div"
    {[ "data-ea-publisher" := "docs"; "data-ea-type" := "text";
       "class" := "flat loaded" ]}
    [Elem "div" {[ "class" := "ea-content" ]} [Text "An ethical ad"]].


Definition paragraph : Dom.element := Element "p" ∅ [Text "Hello"].

Definition placement : Placement.t :=
  set_response
    (new (Some "docs") "text-v1" 0 (Options None None None false None None))
    response.

(** A placement with the style [stickybox]. *)
Definition sticky : Placement.t :=
  new (Some "docs") "text-v1" 0
    (Options None (Some "stickybox") None false None None).

(** The addresses of the sample are absolute and in normal form: reading
    a [src] gives back what was written. *)
Definition href (url : string) : string := url.

Definition tracking : Tracker.state := Tracker.start placement marker false.

Definition surroundings : Bootstrap.surroundings :=
  Bootstrap.Surroundings
    (fun index => Clock 1662422400000 (N.of_nat index)
                    "https://docs.example.org" "/en/latest/")
    "4.2".

(** A page without a marker element, and a page with one. *)
Definition plain_page : Bootstrap.world :=
  Bootstrap.World [paragraph] "Hello" Keywords.initial_store [] [] [].

Definition marked_page : Bootstrap.world :=
  Bootstrap.World [paragraph; marker] "Hello" Keywords.initial_store [] [] [].

End Sample.

(** * Properties *)

(** ** Keyword extraction *)

Section KeywordFacts.
Import JsString Keywords.

Implicit Types (h : hist) (tag w : string) (words : list string).

(** The pieces of [split(/\s+/)] hold no white space, hence no line
    terminator: in [wordTrimmer], [.] matches each of their code units. *)
Lemma split_ws_from_no_space in_run text w :
  w ∈ split_ws_from in_run text -> no_space w = true.
Proof.
  revert in_run w. induction text as [|c r IH]; intros in_run w; cbn [split_ws_from].
  - by intros ->%list_elem_of_singleton.
  - destruct (is_space c) eqn:Hc.
    + destruct in_run; [apply IH|].
      intros [->|Hin]%elem_of_cons; [done|by eapply IH].
    + destruct (split_ws_from false r) as [|w0 ws] eqn:Hs.
      * intros ->%list_elem_of_singleton. cbn. by rewrite Hc.
      * intros [->|Hin]%elem_of_cons.
        -- cbn. rewrite Hc. cbn. apply (IH false). rewrite Hs. left.
        -- apply (IH false). rewrite Hs. by right.
Qed.

Lemma analyzed_words_no_space textContent w :
  w ∈ analyzed_words textContent -> no_space w = true.
Proof.
  unfold analyzed_words, split_ws.
  intros (i & Hin & _)%elem_of_take.
  apply list_elem_of_lookup_2 in Hin. by eapply split_ws_from_no_space.
Qed.

Lemma hist_get_set tag k v h :
  hist_get tag (hist_set k v h) = if String.eqb k tag then Some v else hist_get tag h.
Proof.
  induction h as [|[k' n] r IH]; simpl.
  - destruct (String.eqb_spec k tag); reflexivity.
  - destruct (String.eqb_spec k' k) as [->|Hne]; simpl.
    + destruct (String.eqb_spec k tag); reflexivity.
    + rewrite IH. destruct (String.eqb_spec k' tag) as [->|]; [|reflexivity].
      destruct (String.eqb_spec k tag); congruence.
Qed.

Lemma hist_set_keys k v h :
  (hist_set k v h).*1 = if decide (k ∈ h.*1) then h.*1 else h.*1 ++ [k].
Proof.
  induction h as [|[k' n] r IH]; csimpl.
  - destruct (decide (k ∈ [])) as [Hin|_]; [by apply elem_of_nil in Hin|done].
  - destruct (String.eqb_spec k' k) as [->|Hne]; csimpl.
    + rewrite decide_True; [done|left].
    + rewrite IH. destruct (decide (k ∈ r.*1)) as [Hin|Hout].
      * rewrite decide_True; [done|by right].
      * rewrite decide_False; [done|]. intros [->|?]%elem_of_cons; done.
Qed.

Lemma hist_set_NoDup k v h : NoDup h.*1 -> NoDup (hist_set k v h).*1.
Proof.
  intros Hnd. rewrite hist_set_keys.
  destruct (decide (k ∈ h.*1)) as [Hin|Hin]; [done|].
  apply NoDup_app. split_and!; [done| |apply NoDup_singleton].
  intros x Hx ->%list_elem_of_singleton. done.
Qed.

Lemma hist_get_elem tag n h :
  NoDup h.*1 -> (tag, n) ∈ h -> hist_get tag h = Some n.
Proof.
  induction h as [|[k' m] r IH]; simpl; intros Hnd Hin.
  - by apply elem_of_nil in Hin.
  - apply NoDup_cons in Hnd as [Hk Hnd].
    apply elem_of_cons in Hin as [[= <- <-]|Hin].
    + by rewrite String.eqb_refl.
    + destruct (String.eqb_spec k' tag) as [->|]; [|by apply IH].
      exfalso. apply Hk. apply list_elem_of_fmap. by exists (tag, n).
Qed.

Lemma hist_get_or_0_tally tag h : hist_get_or_0 tag h = tally tag h.
Proof.
  unfold hist_get_or_0, tally. destruct (hist_get tag h) as [n|]; simpl; [|done].
  destruct (N.eqb_spec n 0); congruence.
Qed.

Lemma occurrences_cons tag w words :
  occurrences tag (w :: words) =
  ((if stands_for tag w then 1 else 0) + occurrences tag words)%N.
Proof.
  unfold occurrences. cbn [List.filter].
  destruct (stands_for tag w); cbn [length]; lia.
Qed.

Lemma occurrences_snoc tag w words :
  occurrences tag (words ++ [w]) =
  (occurrences tag words + (if stands_for tag w then 1 else 0))%N.
Proof.
  unfold occurrences. rewrite List.filter_app, length_app. cbn [List.filter].
  destruct (stands_for tag w); cbn [length]; lia.
Qed.

Lemma tally_count_word tag w h :
  tally tag (count_word w h) =
  (tally tag h + (if stands_for tag w then 1 else 0))%N.
Proof.
  unfold count_word, stands_for.
  destruct (KEYWORDS !! normalize w) as [t|]; [|lia].
  unfold tally at 1. rewrite hist_get_set, hist_get_or_0_tally.
  destruct (String.eqb_spec t tag) as [->|]; simpl; [done|].
  unfold tally. lia.
Qed.

Lemma count_word_NoDup w h : NoDup h.*1 -> NoDup (count_word w h).*1.
Proof.
  unfold count_word. destruct (KEYWORDS !! normalize w); [|done].
  apply hist_set_NoDup.
Qed.

(** The loop is a left fold over the words that it reaches. *)
Lemma scan_fold words x h :
  scan words x h =
  fold_left (fun h w => count_word w h)
    (take (N.to_nat (MAX_WORDS_ANALYZED - x)) words) h.
Proof.
  revert x h. induction words as [|w rest IH]; intros x h; simpl.
  - by rewrite take_nil.
  - destruct (N.ltb_spec x MAX_WORDS_ANALYZED) as [Hlt|Hge].
    + rewrite IH.
      replace (N.to_nat (MAX_WORDS_ANALYZED - x))
        with (S (N.to_nat (MAX_WORDS_ANALYZED - (x + 1)))) by lia.
      reflexivity.
    + replace (N.to_nat (MAX_WORDS_ANALYZED - x)) with 0%nat by lia.
      reflexivity.
Qed.

Lemma fold_count_word words h :
  NoDup h.*1 ->
  let h' := fold_left (fun h w => count_word w h) words h in
  NoDup h'.*1 /\
  forall tag, tally tag h' = (tally tag h + occurrences tag words)%N.
Proof.
  revert h. induction words as [|w rest IH]; intros h Hnd; simpl.
  - split; [done|]. intros tag. unfold occurrences. simpl. lia.
  - destruct (IH (count_word w h) (count_word_NoDup w h Hnd)) as [Hnd' Ht].
    split; [done|]. intros tag.
    rewrite Ht, tally_count_word, occurrences_cons. lia.
Qed.

(** Every entry of the histogram of a page holds the number of analysed
    words that stand for its tag. *)
Lemma scan_entries textContent tag n :
  (tag, n) ∈ scan (split_ws textContent) 0 [] ->
  n = occurrences tag (analyzed_words textContent).
Proof.
  rewrite scan_fold, N.sub_0_r. fold (analyzed_words textContent).
  intros Hin.
  destruct (fold_count_word (analyzed_words textContent) []) as [Hnd Ht];
    [apply NoDup_nil_2|].
  specialize (Ht tag). unfold tally in Ht.
  rewrite (hist_get_elem tag n _ Hnd Hin) in Ht. simpl in Ht. lia.
Qed.

Lemma insert_entry_elem a b l : a ∈ insert_entry b l <-> a = b \/ a ∈ l.
Proof.
  induction l as [|c r IH]; simpl.
  - rewrite list_elem_of_singleton. split; [by left|].
    intros [Heq|Hnil]; [done|by apply elem_of_nil in Hnil].
  - destruct (compare_entries b c <=? 0)%Z.
    + rewrite elem_of_cons. tauto.
    + rewrite !elem_of_cons, IH. tauto.
Qed.

Lemma sort_entries_elem a l : a ∈ sort_entries l <-> a ∈ l.
Proof.
  induction l as [|b r IH]; simpl; [done|].
  rewrite insert_entry_elem, elem_of_cons, IH. done.
Qed.

Lemma stands_for_tag tag words :
  (0 < occurrences tag words)%N -> exists w, w ∈ words /\ KEYWORDS !! normalize w = Some tag.
Proof.
  induction words as [|w rest IH].
  - unfold occurrences. simpl. lia.
  - rewrite occurrences_cons. unfold stands_for at 1.
    destruct (KEYWORDS !! normalize w) as [t|] eqn:Hk.
    + destruct (String.eqb_spec t tag) as [->|].
      * intros _. exists w. split; [left|done].
      * intros Hpos. destruct IH as (w' & Hw' & Hk'); [lia|].
        exists w'. split; [by right|done].
    + intros Hpos. destruct IH as (w' & Hw' & Hk'); [lia|].
      exists w'. split; [by right|done].
Qed.

(** The list that a scan of the page gives. *)
Lemma scan_page_bounds textContent :
  length (scan_page textContent) <= MAX_KEYWORDS /\
  forall tag, tag ∈ scan_page textContent ->
    (MIN_KEYWORD_OCCURRENCES <= occurrences tag (analyzed_words textContent))%N.
Proof.
  unfold scan_page. split.
  - rewrite length_map, length_take. lia.
  - intros tag ([t n] & -> & Hin)%list_elem_of_fmap. simpl.
    apply elem_of_take in Hin as (i & Hin & _).
    apply list_elem_of_lookup_2 in Hin.
    apply (proj1 (sort_entries_elem _ _)) in Hin.
    apply list_elem_of_In, List.filter_In in Hin as [Hin Hmin].
    apply list_elem_of_In, scan_entries in Hin. subst n.
    simpl in Hmin. by apply N.leb_le in Hmin.
Qed.

(** A call that finds the cache empty scans the page. *)
Lemma detectKeywords_first_call (st : store) (textContent : string) :
  detectedKeywords st = None ->
  let '(r, st') := detectKeywords st textContent in
  let keywords := deref r st' in
  length keywords <= 3 /\
  (N.of_nat (length (analyzed_words textContent)) <= 9999)%N /\
  forall tag, tag ∈ keywords ->
    (2 <= occurrences tag (analyzed_words textContent))%N /\
    exists w, KEYWORDS !! w = Some tag.
Proof.
  intros Hnull. unfold detectKeywords. rewrite Hnull.
  unfold deref. cbn [arrays]. rewrite lookup_app_r, Nat.sub_diag by lia.
  cbn [lookup list_lookup default].
  destruct (scan_page_bounds textContent) as [Hlen Hocc].
  split; [exact Hlen|]. split.
  - unfold analyzed_words. rewrite length_take.
    change MAX_WORDS_ANALYZED with 9999%N. lia.
  - intros tag Hin. specialize (Hocc tag Hin).
    change MIN_KEYWORD_OCCURRENCES with 2%N in Hocc.
    split; [exact Hocc|].
    destruct (stands_for_tag tag (analyzed_words textContent)) as (w & _ & Hw);
      [lia|]. by exists (normalize w).
Qed.

Lemma detectKeywords_hit st r text :
  detectedKeywords st = Some r -> detectKeywords st text = (r, st).
Proof. intros H. unfold detectKeywords. by rewrite H. Qed.

Lemma detectKeywords_stores st text :
  detectedKeywords (detectKeywords st text).2 = Some (detectKeywords st text).1.
Proof.
  unfold detectKeywords. destruct (detectedKeywords st) eqn:H; simpl; done.
Qed.

Lemma detect_all_hit st r (texts : list string) :
  detectedKeywords st = Some r ->
  detect_all st texts = (replicate (length texts) r, st).
Proof.
  intros Hc. induction texts as [|t rest IH];
    cbn [detect_all length replicate]; [done|].
  by rewrite (detectKeywords_hit _ _ _ Hc), IH.
Qed.

(** C4. In any sequence of calls of [detectKeywords] from the start of the
    module, each call returns a list of at most [MAX_KEYWORDS] = 3 tags; each
    of them is a tag of the dictionary [KEYWORDS], and at least
    [MIN_KEYWORD_OCCURRENCES] = 2 of the first [MAX_WORDS_ANALYZED] = 9999
    words of the page that was scanned (the page of the first call) stand for
    it. *)
Theorem detectKeywords_bounds (earlier : list string) (textContent : string) :
  let st := (detect_all initial_store earlier).2 in
  let scanned := hd textContent earlier in
  let '(r, st') := detectKeywords st textContent in
  let keywords := deref r st' in
  length keywords <= 3 /\
  (N.of_nat (length (analyzed_words scanned)) <= 9999)%N /\
  forall tag, tag ∈ keywords ->
    (2 <= occurrences tag (analyzed_words scanned))%N /\
    exists w, KEYWORDS !! w = Some tag.
Proof.
  destruct earlier as [|first rest]; cbn [detect_all hd snd].
  - by apply detectKeywords_first_call.
  - pose proof (detectKeywords_first_call initial_store first eq_refl) as Hb.
    pose proof (detectKeywords_stores initial_store first) as Hc.
    destruct (detectKeywords initial_store first) as [r st1]. cbn [fst snd] in Hc.
    rewrite (detect_all_hit _ _ rest Hc). cbn [snd].
    rewrite (detectKeywords_hit _ _ textContent Hc). exact Hb.
Qed.

(** C5. After a first call of [detectKeywords], whatever the store it
    started from and whatever the list it found (the empty list too), the
    cache holds the reference that the call returned, and every later call
    returns that same reference and leaves the store as it is (the array is
    the same one and holds the same tags), whatever the text of the page has
    become: the page is not scanned again. *)
Theorem detectKeywords_idempotent (st : store) (textContent : string)
    (later : list string) :
  let '(r, st') := detectKeywords st textContent in
  detectedKeywords st' = Some r /\
  detect_all st' later = (replicate (length later) r, st') /\
  forall text, detectKeywords st' text = (r, st').
Proof.
  pose proof (detectKeywords_stores st textContent) as Hc.
  destruct (detectKeywords st textContent) as [r st']. cbn in Hc.
  split; [done|]. split.
  - by apply detect_all_hit.
  - intros text. by apply detectKeywords_hit.
Qed.

(** The empty list is cached like any other: a page without keywords is
    scanned once, and a later call returns the empty array of the first
    call even if the page has keywords by then. *)
Example detectKeywords_empty_cached :
  let '(r, st) := detectKeywords initial_store "Nothing to see here." in
  deref r st = [] /\
  detectKeywords st "python python python" = (r, st).
Proof. vm_compute. done. Qed.

(** The example of the specification: [kubernetes] five times and [docker]
    once. *)
Example detectKeywords_kubernetes :
  scan_page "Kubernetes kubernetes, (kubernetes) 'kubernetes' docker kubernetes."
  = ["kubernetes"].
Proof. vm_compute. reflexivity. Qed.

(** A keyword that is not made of letters: [c++] in either case, with a
    closing mark or without. *)
Example detectKeywords_cplusplus :
  scan_page "Modern C++ is not the c++ of old, nor is it C." = ["cplusplus"] /\
  KEYWORDS !! "c++" = Some "cplusplus".
Proof. vm_compute. done. Qed.

(** No tag is a canonical array index, so [Object.entries(keywordHist)]
    runs through the tags in the order of their first occurrence. *)
Lemma KEYWORDS_tags_not_indices :
  forallb (fun kv => negb (is_array_index kv.2)) KEYWORDS_entries = true /\
  size KEYWORDS = length KEYWORDS_entries.
Proof. vm_compute. done. Qed.

End KeywordFacts.

(** ** The constructor, the factory and the request *)

Section PlacementFacts.
Import JsString Js Dom Placement.

Lemma className_set_type element v :
  className (setAttribute element (ATTR_PREFIX +:+ "type") v) = className element.
Proof. unfold className, setAttribute. simpl. by rewrite lookup_insert_ne. Qed.

Lemma from_element_target target element :
  (from_element target element).1.1 = with_default_type element.
Proof.
  unfold from_element, with_default_type.
  destruct (attr_truthy (getAttribute element (ATTR_PREFIX +:+ "type")));
    simpl; match goal with |- context [includes ?x ?l] =>
                             destruct (includes x l) end; reflexivity.
Qed.



Lemma from_element_loaded_None target element :
  includes "loaded" (split " " (className element)) = true ->
  from_element target element =
  (with_default_type element, [(LogError, "EthicalAd already loaded.")], None).
Proof.
  intros Hl. unfold from_element, with_default_type.
  destruct (attr_truthy (getAttribute element (ATTR_PREFIX +:+ "type")));
    simpl; rewrite ?className_set_type, Hl; reflexivity.
Qed.

(** Where the class attribute has no other white space than spaces, the
    split of [from_element] gives the pieces of the class list. *)
Lemma split_on_spaces (c : string) :
  spaces_only c = true -> split_on is_ascii_whitespace c = split " " c.
Proof.
  induction c as [|a r IH]; [done|]. cbn [spaces_only split_on split].
  intros [Ha Hr]%andb_true_iff. rewrite (IH Hr).
  destruct (is_ascii_whitespace a) eqn:Hw.
  - cbn [negb orb] in Ha. by rewrite Ha.
  - destruct (Ascii.eqb_spec a " ") as [->|_]; [discriminate Hw|done].
Qed.

Lemma includes_nonempty (x : string) (l : list string) :
  x <> "" ->
  includes x (List.filter (fun w => negb (String.eqb w "")) l) = includes x l.
Proof.
  intros Hx. induction l as [|w r IH]; [done|]. cbn [List.filter].
  destruct (String.eqb_spec w "") as [->|Hw]; cbn [negb].
  - unfold includes in *. cbn [existsb]. rewrite IH.
    destruct (String.eqb_spec x "") as [?|_]; done.
  - unfold includes in *. cbn [existsb]. by rewrite IH.
Qed.

Lemma classList_split (element : Dom.element) :
  spaces_only (className element) = true ->
  includes "loaded" (classList element)
  = includes "loaded" (split " " (className element)).
Proof.
  intros Hs. unfold classList. rewrite includes_nonempty by done.
  by rewrite split_on_spaces.
Qed.




(** Without the class in its list, and with spaces only, the element gets
    its placement. *)
Lemma from_element_not_loaded target element :
  spaces_only (className element) = true ->
  includes "loaded" (classList element) = false ->
  is_Some (from_element target element).2.
Proof.
  intros Hs Hl. rewrite (classList_split _ Hs) in Hl.
  unfold from_element.
  destruct (attr_truthy (getAttribute element (ATTR_PREFIX +:+ "type")));
    cbn zeta; rewrite ?className_set_type, Hl; by eexists.
Qed.

(** *** The class that [load()] writes *)

Lemma append_cons (x : ascii) (r b : string) :
  String x r +:+ b = String x (r +:+ b).
Proof. reflexivity. Qed.

Lemma append_assoc (a b c : string) : (a +:+ b) +:+ c = a +:+ (b +:+ c).
Proof. induction a as [|x r IH]; [done|]. rewrite !append_cons. by f_equal. Qed.

Lemma trim_start_loaded (c : string) :
  exists x, trim_start (c +:+ " loaded") = x +:+ "loaded" /\
            (x = "" \/ exists y, x = y +:+ " ").
Proof.
  induction c as [|a r IH].
  - exists "". split; [reflexivity|by left].
  - rewrite append_cons. cbn [trim_start]. destruct (is_space a); [exact IH|].
    rewrite <- append_cons.
    exists (String a r +:+ " "). split; [|right; by exists (String a r)].
    by rewrite append_assoc.
Qed.

Lemma trim_end_loaded (x : string) : trim_end (x +:+ "loaded") = x +:+ "loaded".
Proof.
  induction x as [|a r IH]; [reflexivity|].
  rewrite append_cons. cbn [trim_end]. rewrite IH. by destruct r.
Qed.

Lemma split_cons_nonempty sep (text : string) : split sep text <> [].
Proof.
  destruct text as [|c r]; cbn; [done|].
  destruct (Ascii.eqb c sep); [done|]. by destruct (split sep r).
Qed.

Lemma split_app sep (y z : string) :
  split sep (y +:+ String sep z) = split sep y ++ split sep z.
Proof.
  induction y as [|c r IH].
  - change ("" +:+ String sep z) with (String sep z). cbn [split].
    by rewrite Ascii.eqb_refl.
  - rewrite append_cons. cbn [split].
    destruct (Ascii.eqb c sep); [by rewrite IH|].
    rewrite IH. pose proof (split_cons_nonempty sep r).
    by destruct (split sep r).
Qed.

Lemma includes_app x (l l' : list string) :
  includes x (l ++ l') = includes x l || includes x l'.
Proof. unfold includes. apply existsb_app. Qed.

Lemma loaded_class_included (c : string) :
  includes "loaded" (split " " (trim (c +:+ " loaded"))) = true.
Proof.
  unfold trim. destruct (trim_start_loaded c) as (x & -> & Hx).
  rewrite trim_end_loaded.
  destruct Hx as [->|[y ->]]; [reflexivity|].
  rewrite append_assoc. change (" " +:+ "loaded") with (String " " "loaded").
  rewrite split_app, includes_app. apply orb_true_r.
Qed.

(** An element that [load()] has filled is refused by [from_element]: the
    class that the first callback writes is found by the test of the
    factory. *)
Lemma load_show_then_from_element p el element el' target :
  load_show p el element = Returned el' ->
  includes "loaded" (split " " (className el')) = true /\
  (from_element target el').2 = None.
Proof.
  intros Hshow.
  assert (className el' = trim (className el +:+ " loaded")) as Hc.
  { unfold load_show in Hshow.
    destruct element as [| |b|n|str|props|nd]; try done;
      destruct (negb (truthy _)); try done.
    destruct (applyStyles p nd) as [n'|]; [|done].
    cbn in Hshow. injection Hshow as <-.
    unfold className, appendChild, removeChildren, set_className, setAttribute.
    cbn. by rewrite lookup_insert_eq. }
  assert (includes "loaded" (split " " (className el')) = true) as Hl
    by (rewrite Hc; apply loaded_class_included).
  split; [exact Hl|]. by rewrite (from_element_loaded_None _ _ Hl).
Qed.

(** *** The address of the request *)

Lemma free_of_split sep (w : string) : free_of sep w = true -> split sep w = [w].
Proof.
  induction w as [|c r IH]; [done|]. cbn [free_of split].
  destruct (Ascii.eqb c sep); [done|]. cbn [negb andb]. intros H.
  by rewrite (IH H).
Qed.

Lemma split_join sep (l : list string) :
  l <> [] -> Forall (fun w => free_of sep w = true) l ->
  split sep (join (String sep "") l) = l.
Proof.
  induction l as [|w r IH]; [done|]. intros _ [Hw Hr]%Forall_cons.
  destruct r as [|w' r'].
  - cbn [join]. by apply free_of_split.
  - change (join (String sep "") (w :: w' :: r'))
      with (w +:+ String sep (join (String sep "") (w' :: r'))).
    rewrite split_app, IH by done. by rewrite free_of_split.
Qed.







(** A marker element without the attribute [data-ea-campaign-types] gets
    the default through the factory. *)
Lemma from_element_campaign_types target element p :
  getAttribute element "data-ea-campaign-types" = None ->
  (from_element target element).2 = Some p ->
  campaign_types p = DEFAULT_CAMPAIGN_TYPES.
Proof.
  intros Ha. unfold from_element.
  destruct (attr_truthy (getAttribute element (ATTR_PREFIX +:+ "type")));
    simpl; match goal with |- context [includes ?x ?l] =>
                             destruct (includes x l) end; simpl; try done;
    intros [= <-]; unfold new; simpl;
    change (ATTR_PREFIX +:+ "campaign-types") with "data-ea-campaign-types";
    unfold getAttribute, setAttribute in *; simpl;
    rewrite ?lookup_insert_ne by done; rewrite Ha; reflexivity.
Qed.

(** *** The JSONP callback and the error listener *)

Lemma resolve_not_rejected {A} (v : A) p :
  is_rejected (resolve v p) = is_rejected p.
Proof. by destruct p. Qed.

Lemma resolve_settled {A} (v : A) p : p <> Pending -> resolve v p = p.
Proof. by destruct p. Qed.

Lemma resolve_resolve {A} (v v' : A) p : resolve v' (resolve v p) = resolve v p.
Proof. by destruct p. Qed.

(** The callback never throws, and all it does to the promise is to
    resolve it. *)
Lemma window_callback_returns parse_html f response :
  exists p' v,
    window_callback parse_html f response
    = Returned (Fetching p' (resolve v (settled f))).
Proof.
  unfold window_callback, and_then.
  destruct response as [| |b|n|s|props|nd]; simpl; eauto;
    repeat match goal with
           | |- context [if ?b then _ else _] => destruct b eqn:?; simpl
           end; eauto.
Qed.

(** The two ways of the callback. *)
Lemma window_callback_cases parse_html f response :
  (well_formed response = true /\
   exists v, (v = Null \/ is_node v = true) /\
     window_callback parse_html f response
     = Returned (Fetching (set_response (self f) response)
                   (resolve v (settled f)))) \/
  (well_formed response = false /\
   window_callback parse_html f response
   = Returned (Fetching (self f) (resolve Null (settled f)))).
Proof.
  unfold window_callback, and_then, well_formed.
  destruct response as [| |b|n|s|props|nd]; cbn [get truthy bind andb];
    try (right; split; reflexivity).
  - right. by destruct b.
  - right. by destruct (negb (n =? 0)%Z) eqn:E; unfold bind, truthy; rewrite ?E.
  - right. by destruct (negb (s =? "")%string) eqn:E; unfold bind, truthy; rewrite ?E.
  - destruct (truthy (default Undefined (lookup_prop "html" props))) eqn:Hh;
      cbn [bind andb].
    + destruct (truthy (default Undefined (lookup_prop "view_url" props))) eqn:Hu;
        cbn [bind andb]; [left|right; done].
      split; [done|]. eexists. split; [|reflexivity].
      destruct (parse_html _); [by left|by right].
    + right. rewrite Hh. done.
Qed.

(** A response lacks its markup or its view URL exactly when the callback
    does not take it for an ad. *)
Lemma lacks_well_formed response :
  lacks response "html" = true \/ lacks response "view_url" = true <->
  well_formed response = false.
Proof.
  unfold lacks, well_formed.
  destruct response as [| |b|n|s|props|nd]; cbn [get truthy negb andb];
    rewrite ?andb_false_r; try (split; [done|by left]).
  destruct (truthy (default Undefined (lookup_prop "html" props))),
           (truthy (default Undefined (lookup_prop "view_url" props)));
    cbn [negb andb]; split; try done; try (by left); try (by right).
  intros [?|?]; done.
Qed.

Lemma window_callback_no_ad parse_html f response :
  lacks response "html" = true \/ lacks response "view_url" = true ->
  window_callback parse_html f response
  = Returned (Fetching (self f) (resolve Null (settled f))).
Proof.
  intros Hl%lacks_well_formed.
  destruct (window_callback_cases parse_html f response)
    as [(Hwf & _)|(_ & ->)]; [congruence|done].
Qed.

Lemma call_all_settled parse_html f responses :
  settled f <> Pending ->
  settled (call_all parse_html f responses).1 = settled f /\
  (call_all parse_html f responses).2 = [].
Proof.
  revert f. induction responses as [|r rest IH]; intros f Hs; simpl; [done|].
  unfold deliver.
  destruct (window_callback_returns parse_html f r) as (p' & v & ->).
  rewrite (resolve_settled _ _ Hs).
  specialize (IH (Fetching p' (settled f)) Hs).
  destruct (call_all parse_html (Fetching p' (settled f)) rest) as [f2 e2].
  simpl in *. destruct IH as [-> ->]. done.
Qed.

Lemma call_all_no_exception parse_html f responses :
  (call_all parse_html f responses).2 = [] /\
  is_rejected (settled (call_all parse_html f responses).1)
  = is_rejected (settled f).
Proof.
  revert f. induction responses as [|r rest IH]; intros f; simpl; [done|].
  unfold deliver.
  destruct (window_callback_returns parse_html f r) as (p' & v & ->).
  specialize (IH (Fetching p' (resolve v (settled f)))).
  destruct (call_all parse_html _ rest) as [f2 e2].
  simpl in *. destruct IH as [-> ->]. by rewrite resolve_not_rejected.
Qed.

(** The promise of [fetch()] is never rejected and no handler throws. *)
Lemma fetch_never_rejects parse_html p o :
  is_rejected (settled (fetch parse_html p o).1) = false /\
  (fetch parse_html p o).2 = [].
Proof.
  destruct o as [|responses]; simpl; [done|].
  destruct (call_all_no_exception parse_html (fetch_start p) responses) as [-> ->].
  done.
Qed.

(** C2. When the registered callback is called with a response that
    lacks its [html] or its [view_url] (the property is missing or falsy,
    or the response is itself no object), it returns without throwing, and
    all it has done is [resolve(null)]: the placement is not written.  On
    the pending promise of a [fetch()] this fulfils the promise with
    [null], and it stays so whatever the script calls afterwards; no
    handler throws and the promise is not rejected. *)
Theorem fetch_no_ad (parse_html : string -> list node) (p : Placement.t)
    (response : value) (others : list value) :
  lacks response "html" = true \/ lacks response "view_url" = true ->
  (forall f, window_callback parse_html f response
             = Returned (Fetching (self f) (resolve Null (settled f)))) /\
  window_callback parse_html (fetch_start p) response
  = Returned (Fetching p (Fulfilled Null)) /\
  let '(f, thrown) := fetch parse_html p (Loaded (response :: others)) in
  settled f = Fulfilled Null /\ thrown = [] /\ is_rejected (settled f) = false.
Proof.
  intros Hlack.
  pose proof (window_callback_no_ad parse_html (fetch_start p) response Hlack)
    as Hcb.
  split; [intros f; by apply window_callback_no_ad|].
  split; [exact Hcb|]. cbn [fetch call_all]. unfold deliver. rewrite Hcb.
  destruct (call_all_settled parse_html (Fetching p (Fulfilled Null)) others)
    as [Hs He]; [done|].
  cbn [resolve fetch_start settled self] in *.
  destruct (call_all parse_html _ others) as [f2 e2]. cbn in *.
  rewrite Hs, He. done.
Qed.

Lemma fetch_no_ad_witness :
  (lacks Sample.no_view_url "html" = true \/
   lacks Sample.no_view_url "view_url" = true) /\
  window_callback Sample.parse_html (fetch_start Sample.placement)
    Sample.no_view_url
  = Returned (Fetching Sample.placement (Fulfilled Null)).
Proof.
  split; [right; reflexivity|].
  apply (fetch_no_ad Sample.parse_html Sample.placement Sample.no_view_url []).
  right. reflexivity.
Defined.

(** C3. When the script fires [error], the listener resolves the promise
    of the [fetch()] with [undefined] and nothing is thrown; [undefined] is
    not the [null] of a response without an ad, and [load()] tells the two
    apart; and whatever the browser does with the script, the promise is
    not rejected. *)
Theorem fetch_blocked (parse_html : string -> list node) (p : Placement.t) :
  fetch parse_html p LoadError = (Fetching p (Fulfilled Undefined), []) /\
  Undefined <> Null /\
  (forall el,
     load_show p el Undefined
     = Thrown (EthicalAdsWarning "Ad decision request blocked") /\
     load_show p el Null = Thrown (EthicalAdsWarning "No ads to show.")) /\
  forall o, is_rejected (settled (fetch parse_html p o).1) = false.
Proof.
  split_and!; try done. intros o. apply fetch_never_rejects.
Qed.

End PlacementFacts.

(** ** Viewport and view-time tracking *)

Section TrackerFacts.
Import JsString Js Dom Placement Tracker.

Implicit Types (s : state) (e : event) (es : list event).

(** [inViewport] never throws: it reads the response only if there is
    one. *)
Lemma inViewport_returns p in_view vis :
  exists b, inViewport p in_view vis = Returned b.
Proof.
  unfold inViewport, and_then.
  destruct (response p) as [| |b|n|str|props|nd]; simpl; eauto;
    unfold bind, truthy;
    repeat match goal with
           | |- context [if ?b then _ else _] => destruct b eqn:?
           end; eauto.
Qed.

(** What a callback can do to the flag and to the counter. *)
Lemma call_cases e s s' :
  call e s = Returned s' ->
  (sent s' = sent s /\ viewed s' = viewed s) \/
  (sent s = false /\ sent s' = false /\
   viewed s' = (viewed s + VIEW_TIME_INTERVAL)%Z /\
   exists in_view vis, e = ViewTimeTick in_view vis /\
     inViewport (placement s) in_view vis = Returned true /\
     children (target_el s') = children (target_el s) /\
     view_time_counter s' =
       (if (VIEW_TIME_MAX <=? viewed s')%Z then false else view_time_counter s)) \/
  (sent s = false /\ sent s' = true /\ viewed s' = viewed s /\
   (0 < viewed s)%Z /\
   exists vis url, e = VisibilityChange vis /\
     (vis = hidden \/ vis = unloaded) /\
     get (response (placement s)) "view_time_url" = Returned url /\
     truthy url = true /\
     visibility_change_listener s' = false /\
     children (target_el s') =
       children (target_el s) ++
         [pixel (to_string url +:+ "?view_time=" +:+ to_string (Number (viewed s)))]).
Proof.
  unfold sent, viewed. destruct e as [iv vis href|iv vis|vis|u]; cbn [call].
  - unfold viewport_detection_tick.
    destruct (inViewport_returns (placement s) iv vis) as [b ->]. cbn [bind].
    destruct b; [|intros [= <-]; by left].
    destruct (get _ _); cbn [bind]; [|done]. intros [= <-]. by left.
  - unfold view_time_counter_tick.
    destruct (view_time_sent (placement s)) eqn:Hs; [intros [= <-]; by left|].
    destruct (inViewport (placement s) iv vis) as [b|] eqn:Hv; cbn [bind]; [|done].
    destruct b; intros [= <-]; [|by left].
    right; left. cbn. split_and!; try done. by exists iv, vis.
  - unfold visibility_change.
    destruct (view_time (placement s) <=? 0)%Z eqn:Hpos; cbn [orb];
      [intros [= <-]; by left|].
    destruct (view_time_sent (placement s)) eqn:Hs; [intros [= <-]; by left|].
    destruct (get (response (placement s)) "view_time_url") as [url|] eqn:Hu;
      cbn [bind]; [|done].
    destruct (truthy url) eqn:Ht; cbn [negb]; [|intros [= <-]; by left].
    destruct (visibility_eqb vis hidden || visibility_eqb vis unloaded) eqn:Hh;
      intros [= <-]; [|by left].
    right; right. cbn. split_and!; try done; [lia|].
    exists vis, url. split_and!; try done.
    destruct vis; cbn in Hh; try done; auto.
  - intros [= <-]. by left.
Qed.

Lemma force_cases e s :
  force (call e s) s = s \/ call e s = Returned (force (call e s) s).
Proof. destruct (call e s); cbn; auto. Qed.

(** Once sent, always sent: no callback writes [false]. *)
Lemma race_step_sent s e : sent s = true -> sent (race_step s e) = true.
Proof.
  intros Hs. unfold race_step.
  destruct (force_cases e s) as [->|Hc]; [done|].
  apply call_cases in Hc as [[-> _]|[(Hf & _)|(Hf & _)]]; congruence.
Qed.

Lemma step_race s e : step s e = s \/ step s e = race_step s e.
Proof. unfold step, race_step. destruct (scheduled e s); auto. Qed.

Lemma step_sent s e : sent s = true -> sent (step s e) = true.
Proof.
  intros Hs. destruct (step_race s e) as [->| ->]; [done|].
  by apply race_step_sent.
Qed.

Lemma history_head (f : state -> event -> state) s es :
  exists t, history f s es = s :: t.
Proof. destruct es; cbn; eauto. Qed.

Lemma sent_transitions_cons s s' t :
  sent_transitions (s :: s' :: t) =
  (if negb (sent s) && sent s' then 1 else 0) + sent_transitions (s' :: t).
Proof. reflexivity. Qed.

Lemma sent_transitions_monotone (f : state -> event -> state) :
  (forall s e, sent s = true -> sent (f s e) = true) ->
  forall es s,
    sent_transitions (history f s es) <= (if sent s then 0 else 1).
Proof.
  intros Hmono. induction es as [|e r IH]; intros s; [cbn; lia|].
  cbn [history]. specialize (IH (f s e)).
  destruct (history_head f (f s e) r) as [t Ht]. rewrite Ht in *.
  rewrite sent_transitions_cons.
  destruct (sent s) eqn:Hs.
  - rewrite (Hmono _ e Hs) in *. cbn [negb andb]. lia.
  - destruct (sent (f s e)); cbn [negb andb]; lia.
Qed.

(** C1. Along any sequence of calls of the timer callbacks and of the
    visibility listener on a placement, whether the browser still has them
    scheduled ([step]) or not ([race_step]), [view_time_sent] goes from
    false to true at most once; and any single call either leaves the flag
    as it is, or it finds the flag false, a positive [view_time] and a truthy
    [view_time_url] in the response, and sets the flag. *)
Theorem view_time_sent_once (s : state) (es : list event) :
  sent_transitions (history race_step s es) <= 1 /\
  sent_transitions (history step s es) <= 1 /\
  forall e,
    view_time_sent (placement (race_step s e)) = view_time_sent (placement s) \/
    (view_time_sent (placement s) = false /\
     view_time_sent (placement (race_step s e)) = true /\
     (0 < view_time (placement s))%Z /\
     exists url,
       get (response (placement s)) "view_time_url" = Returned url /\
       truthy url = true).
Proof.
  split_and!.
  - pose proof (sent_transitions_monotone race_step race_step_sent es s).
    destruct (sent s); lia.
  - pose proof (sent_transitions_monotone step step_sent es s).
    destruct (sent s); lia.
  - intros e. unfold race_step.
    destruct (force_cases e s) as [->|Hc]; [by left|].
    apply call_cases in Hc
      as [[Hs _]|[(Hf & Hs & _)|(Hf & Ht & _ & Hpos & vis & url & _ & _ & Hu & Htr & _)]];
      unfold sent in *; [left; congruence..|].
    right. split_and!; try done. by exists url.
Qed.

(** The flag does get set: a second of view time, then the page is hidden;
    and a second hiding and further ticks find nothing left to do. *)
Example view_time_sent_example :
  let h := history step Sample.tracking
             [ViewTimeTick true visible; VisibilityChange hidden;
              ViewTimeTick true visible; VisibilityChange hidden] in
  map sent h = [false; false; true; true; true] /\
  sent_transitions h = 1 /\
  pixels (run Sample.tracking
            [ViewTimeTick true visible; VisibilityChange hidden;
             ViewTimeTick true visible; VisibilityChange hidden])
  = ["https://server.ethicalads.io/proxy/view-time/1/?view_time=1"].
Proof. vm_compute. done. Qed.

(** An interval that was cleared is not set again. *)
Lemma call_counter e s s' :
  call e s = Returned s' ->
  view_time_counter s' = true -> view_time_counter s = true.
Proof.
  destruct e as [iv vis href|iv vis|vis|u]; cbn [call].
  - unfold viewport_detection_tick.
    destruct (inViewport_returns (placement s) iv vis) as [b ->]. cbn [bind].
    destruct b; [|by intros [= <-]].
    destruct (get _ _); cbn [bind]; [|done]. by intros [= <-].
  - unfold view_time_counter_tick.
    destruct (view_time_sent (placement s)); [by intros [= <-]|].
    destruct (inViewport_returns (placement s) iv vis) as [b ->]. cbn [bind].
    destruct b; intros [= <-]; [|done]. cbn.
    by destruct (VIEW_TIME_MAX <=? _)%Z.
  - unfold visibility_change.
    destruct (_ || _); [by intros [= <-]|].
    destruct (get _ _) as [url|]; cbn [bind]; [|done].
    destruct (negb (truthy url)); [by intros [= <-]|].
    destruct (_ || _); by intros [= <-].
  - by intros [= <-].
Qed.

Lemma step_capped s e : capped s -> capped (step s e).
Proof.
  intros [Hr Hlt]. unfold step.
  destruct (scheduled e s) eqn:Hsch; [|done].
  destruct (force_cases e s) as [->|Hc]; [done|].
  pose proof (call_counter _ _ _ Hc) as Hk.
  apply call_cases in Hc
    as [[_ Hv]|[(_ & _ & Hv & iv & vis & -> & _ & _ & Hcnt)|(_ & _ & Hv & _)]];
    unfold capped; rewrite Hv.
  - split; [done|]. intros H. apply Hlt, Hk, H.
  - cbn [scheduled] in Hsch. specialize (Hlt Hsch).
    unfold VIEW_TIME_INTERVAL in *. split; [lia|].
    rewrite Hcnt, Hv. unfold VIEW_TIME_INTERVAL.
    destruct (Z.leb_spec VIEW_TIME_MAX (viewed s + 1)); [done|lia].
  - split; [done|]. intros H. apply Hlt, Hk, H.
Qed.

Lemma run_capped es s : capped s -> capped (run s es).
Proof.
  unfold run. revert s. induction es as [|e r IH]; intros s Hs; [done|].
  cbn [fold_left]. by apply IH, step_capped.
Qed.

(** C9 as it stands fails: the view pixel has been sent and its
    polling has stopped, and the view-time interval is still set and goes
    on counting. *)
Lemma view_time_counter_outlives_view_pixel :
  let s := run Sample.tracking [ViewportTick true visible Sample.href] in
  pixels s = ["https://server.ethicalads.io/proxy/view/1/"] /\
  viewport_detection s = false /\
  let s' := run s [ViewTimeTick true visible; ViewTimeTick true visible] in
  view_time_counter s' = true /\ view_time (placement s') = 2%Z.
Proof. vm_compute. done. Qed.

(** C9, amended. From the start of the tracking of a placement whose
    counter is 0, after any events: [view_time] lies between 0 and
    [VIEW_TIME_MAX] = 300; and at the next tick of the view-time
    interval: if [view_time_sent] is true the interval is cleared and the
    counter is left alone; otherwise, if the interval is still set and the
    ad is in the viewport of a visible page, the counter grows by
    [VIEW_TIME_INTERVAL] = 1, no report is sent, and the interval stays
    set exactly if the counter is still below the cap; and if the ad is
    not in the viewport nothing changes. *)
Theorem view_time_counter_capped (p : Placement.t) (el : Dom.element)
    (u : bool) (es : list event) :
  view_time p = 0%Z ->
  let s := run (start p el u) es in
  (0 <= view_time (placement s) <= 300)%Z /\
  forall in_view vis,
    let s' := step s (ViewTimeTick in_view vis) in
    (view_time_sent (placement s) = true ->
     view_time_counter s' = false /\
     view_time (placement s') = view_time (placement s)) /\
    (view_time_sent (placement s) = false ->
     view_time_counter s = true ->
     inViewport (placement s) in_view vis = Returned true ->
     view_time (placement s') = (view_time (placement s) + 1)%Z /\
     view_time_sent (placement s') = false /\
     pixels s' = pixels s /\
     view_time_counter s' = (view_time (placement s') <? 300)%Z) /\
    (view_time_sent (placement s) = false ->
     inViewport (placement s) in_view vis = Returned false ->
     s' = s).
Proof.
  intros H0. cbn zeta.
  assert (capped (run (start p el u) es)) as [Hr Hlt].
  { apply run_capped. unfold capped, viewed. cbn. rewrite H0.
    unfold VIEW_TIME_MAX. lia. }
  set (s := run (start p el u) es) in *. unfold viewed in *.
  split; [exact Hr|]. intros iv vis. unfold step. cbn [scheduled call].
  unfold view_time_counter_tick. split_and!.
  - intros Hs. rewrite Hs. destruct (view_time_counter s) eqn:Hc; cbn; done.
  - intros Hs Hc Hv. rewrite Hc, Hs, Hv. cbn.
    specialize (Hlt Hc). unfold VIEW_TIME_INTERVAL, VIEW_TIME_MAX in *.
    split_and!; try done.
    destruct (Z.leb_spec (5 * 60) (view_time (placement s) + 1)),
             (Z.ltb_spec (view_time (placement s) + 1) 300); try done; lia.
  - intros Hs Hv. rewrite Hs, Hv. cbn. by destruct (view_time_counter s).
Qed.

Lemma view_time_counter_capped_witness :
  view_time Sample.placement = 0%Z /\
  (0 <= view_time
          (placement
             (run Sample.tracking
                [ViewTimeTick true visible; VisibilityChange hidden]))
     <= 300)%Z.
Proof.
  split; [reflexivity|].
  apply (view_time_counter_capped Sample.placement Sample.marker false
           [ViewTimeTick true visible; VisibilityChange hidden]).
  reflexivity.
Defined.

End TrackerFacts.

(** ** Bootstrap *)

Section BootstrapFacts.
Import JsString Js Dom Placement Bootstrap.

Implicit Types (w : world) (pg : page) (s : surroundings).

Lemma markers_from_none i (els : list Dom.element) :
  (forall e, e ∈ els -> getAttribute e "data-ea-publisher" = None) ->
  markers_from i els = [].
Proof.
  revert i. induction els as [|e r IH]; intros i Hno; [done|].
  cbn [markers_from]. unfold hasAttribute.
  change (ATTR_PREFIX +:+ "publisher") with "data-ea-publisher".
  pose proof (Hno e (list_elem_of_here e r)) as He.
  unfold getAttribute in He. rewrite He.
  rewrite bool_decide_eq_false_2 by (by intros [? ?]).
  apply IH. intros e' Hin. apply Hno. by right.
Qed.

Lemma load_placements_throws s force_load w :
  (forall e, e ∈ elements w -> getAttribute e "data-ea-publisher" = None) ->
  load_placements s force_load w = (Thrown (Error "No ad placements found."), w).
Proof.
  intros Hno. unfold load_placements, querySelectorAll_markers.
  by rewrite (markers_from_none 0 (elements w) Hno).
Qed.

(** C7. On a page none of whose elements has the attribute
    [data-ea-publisher], [load_placements], forced or not, throws the
    error "No ad placements found." and leaves the world as it found it:
    no script is appended (no request to the decision service) and no
    probe image is requested. *)
Theorem load_placements_no_marker (s : surroundings) (force_load : bool)
    (w : world) :
  (forall e, e ∈ elements w -> getAttribute e "data-ea-publisher" = None) ->
  let '(outcome, w') := load_placements s force_load w in
  outcome = Thrown (Error "No ad placements found.") /\
  scripts w' = scripts w /\ images w' = images w /\ w' = w.
Proof.
  intros Hno. by rewrite (load_placements_throws s force_load w Hno).
Qed.

Lemma load_placements_no_marker_witness :
  (forall e, e ∈ elements Sample.plain_page ->
             getAttribute e "data-ea-publisher" = None) /\
  (load_placements Sample.surroundings false Sample.plain_page).1
  = Thrown (Error "No ad placements found.").
Proof.
  assert (forall e, e ∈ elements Sample.plain_page ->
                    getAttribute e "data-ea-publisher" = None) as Hno.
  { intros e [->|Hin]%elem_of_cons; [reflexivity|by apply elem_of_nil in Hin]. }
  split; [exact Hno|].
  pose proof (load_placements_no_marker Sample.surroundings false
                Sample.plain_page Hno) as H.
  destruct (load_placements Sample.surroundings false Sample.plain_page).
  apply H.
Defined.

(** *** The promise [wait] *)

Lemma wait_handlers_wait all w :
  (wait_handlers all Pending w).1 = wait_of all.
Proof. by destruct all. Qed.

Lemma all_after_settled items o (all : promise (list value)) :
  all <> Pending -> all_after items o all = all.
Proof.
  intros Hs. unfold all_after.
  destruct o; destruct (all_values items); by destruct all.
Qed.

Lemma wait_start_wait s w :
  wait (wait_start s w) = wait_of (all (wait_start s w)).
Proof.
  unfold wait_start. destruct (load_placements s false w) as [[its|e] w']; [|done].
  pose proof (wait_handlers_wait (all_after its Pending Pending) w') as H.
  destruct (wait_handlers _ _ _) as [wt w'']. cbn in *. done.
Qed.

Lemma script_done_wait parse_html pg index o :
  wait pg = wait_of (all pg) ->
  wait (script_done parse_html pg index o)
  = wait_of (all (script_done parse_html pg index o)).
Proof.
  intros Hinv. unfold script_done.
  destruct (items pg !! index) as [[p [| |]|]|]; try done.
  destruct (fetch parse_html p o) as [f errs].
  destruct (settled f) as [|element|]; try done.
  destruct (load_settle (self f) element (the_world pg)) as [outcome w].
  destruct (all pg) eqn:Hall.
  - pose proof (wait_handlers_wait
                  (all_after (<[index := Loading (self f) outcome]> (items pg))
                     outcome Pending) w) as H.
    rewrite Hinv. cbn [wait_of].
    destruct (wait_handlers _ _ _) as [wt w'']. cbn in *. done.
  - rewrite all_after_settled by done. cbn. by rewrite Hinv.
  - rewrite all_after_settled by done. cbn. by rewrite Hinv.
Qed.

(** Whatever the page and whatever the scripts do, [wait] is what
    [wait_of] makes of the promise of [Promise.all]: pending with it,
    fulfilled with its array, and fulfilled with the empty array when it
    is rejected. *)
Lemma wait_run_wait parse_html s w events :
  wait (wait_run parse_html s w events)
  = wait_of (all (wait_run parse_html s w events)).
Proof.
  unfold wait_run.
  generalize (wait_start_wait s w). generalize (wait_start s w).
  induction events as [|ev r IH]; intros pg Hpg; [done|].
  cbn [fold_left]. apply IH. by apply script_done_wait.
Qed.

(** [wait] is never rejected. *)
Lemma wait_never_rejects parse_html s w events :
  is_rejected (wait (wait_run parse_html s w events)) = false.
Proof. rewrite wait_run_wait. by destruct (all _). Qed.

(** When [wait] is fulfilled with an array that is not empty, the entries
    of the array are what the promises of [load()] and the skipped elements
    gave: [undefined] and [null]. *)
Lemma map_elements_plain s force_load index refs w :
  Forall item_plain (map_elements s force_load index refs w).1.
Proof.
  revert index w. induction refs as [|ref rest IH]; intros index w; [by cbn|].
  cbn [map_elements].
  destruct (load_element s force_load index ref w) as [it w1] eqn:Hle.
  specialize (IH (S index) w1).
  destruct (map_elements s force_load (S index) rest w1) as [its w2].
  cbn in *. constructor; [|done].
  unfold load_element in Hle.
  destruct (elements w !! ref) as [el|]; [|by injection Hle as <- _].
  destruct (from_element ref el) as [[el' out] [p|]].
  - destruct (force_load || negb (load_manually p)).
    + match type of Hle with context [load_begin ?c ?p ?w] =>
        destruct (load_begin c p w) end. by injection Hle as <- _.
    + by injection Hle as <- _.
  - by injection Hle as <- _.
Qed.

Lemma all_values_plain its vs :
  Forall item_plain its -> all_values its = Some vs -> Forall no_placement vs.
Proof.
  revert vs. induction its as [|it r IH]; intros vs Hok; cbn [all_values].
  - by intros [= <-].
  - apply Forall_cons in Hok as [Hit Hr].
    destruct (item_promise it) as [|v|] eqn:Hp; try done.
    destruct (all_values r) as [vs'|]; [|done]. intros [= <-].
    constructor; [|by apply IH].
    destruct it as [p [|v'|]|]; cbn in *; try done.
    + injection Hp as <-. by left.
    + injection Hp as <-. by right.
Qed.

Lemma all_after_plain its o (all : promise (list value)) vs :
  Forall item_plain its ->
  (forall vs, all = Fulfilled vs -> Forall no_placement vs) ->
  all_after its o all = Fulfilled vs -> Forall no_placement vs.
Proof.
  intros Hits Hall. unfold all_after.
  destruct o; try (destruct all; [done|by apply Hall|done]);
    destruct (all_values its) as [vs'|] eqn:Hv;
    destruct all; try done; try (by apply Hall);
    intros [= <-]; by eapply all_values_plain.
Qed.

Lemma load_settle_plain p element w :
  item_plain (Loading p (load_settle p element w).1).
Proof.
  unfold load_settle. destruct (elements w !! target p); [|done].
  by destruct (load_show _ _ _).
Qed.

Lemma wait_start_plain s w : page_plain (wait_start s w).
Proof.
  unfold wait_start.
  pose proof (map_elements_plain s false 0 (querySelectorAll_markers w) w) as Hm.
  unfold load_placements.
  destruct (length (querySelectorAll_markers w) =? 0)%nat; [by split|].
  destruct (map_elements _ _ _ _ _) as [its w']. cbn in Hm.
  destruct (wait_handlers _ _ _) as [wt w'']. split; cbn [items all]; [done|].
  intros vs. by apply all_after_plain.
Qed.

Lemma script_done_plain parse_html pg index o :
  page_plain pg -> page_plain (script_done parse_html pg index o).
Proof.
  intros [Hits Hall]. unfold script_done.
  destruct (items pg !! index) as [[p [| |]|]|]; try done.
  destruct (fetch parse_html p o) as [f errs].
  destruct (settled f) as [|element|]; try done.
  pose proof (load_settle_plain (self f) element (the_world pg)) as Hs.
  destruct (load_settle (self f) element (the_world pg)) as [outcome w].
  assert (Forall item_plain (<[index := Loading (self f) outcome]> (items pg)))
    as Hits' by (by apply Forall_insert).
  destruct (match all pg with Pending => _ | _ => _ end) as [wt w''].
  split; cbn [items all]; [done|]. intros vs. by apply all_after_plain.
Qed.

Lemma wait_run_plain parse_html s w events :
  page_plain (wait_run parse_html s w events).
Proof.
  unfold wait_run. generalize (wait_start_plain s w). generalize (wait_start s w).
  induction events as [|ev r IH]; intros pg Hpg; [done|].
  cbn [fold_left]. apply IH. by apply script_done_plain.
Qed.

Lemma wait_values parse_html s w events vs :
  wait (wait_run parse_html s w events) = Fulfilled vs ->
  Forall no_placement vs.
Proof.
  rewrite wait_run_wait. destruct (wait_run_plain parse_html s w events) as [_ H].
  destruct (all _) as [|vs'|]; cbn; try done.
  - intros [= <-]. by apply H.
  - by intros [= <-].
Qed.

(** A page with a marker: the ad is shown and [wait] is fulfilled, with
    [undefined] for the placement; the decision service has no ad and [wait]
    is fulfilled with the empty array, the warning being logged at the debug
    level. *)
Example wait_on_marked_page :
  let shown := wait_run Sample.parse_html Sample.surroundings Sample.marked_page
                 [(0, Loaded [Sample.response])] in
  let no_ad := wait_run Sample.parse_html Sample.surroundings Sample.marked_page
                 [(0, Loaded [Sample.no_ad])] in
  wait shown = Fulfilled [Undefined] /\
  map className (elements (the_world shown)) = [""; "loaded"] /\
  wait no_ad = Fulfilled [] /\
  log (the_world no_ad) = [(LogDebug, "No ads to show.")].
Proof. vm_compute. done. Qed.

Lemma wait_run_no_marker parse_html s w events :
  (forall e, e ∈ elements w -> getAttribute e "data-ea-publisher" = None) ->
  wait_run parse_html s w events
  = Page [] Pending Pending [Error "No ad placements found."] w.
Proof.
  intros Hno. unfold wait_run, wait_start.
  rewrite (load_placements_throws s false w Hno).
  induction events as [|ev r IH]; [done|]. cbn [fold_left]. exact IH.
Qed.

(** C6, at a page without a marker element.  The exception of
    [load_placements] leaves the callback of [wait_dom.then] before the
    handlers are attached: whatever happens afterwards, [wait] stays
    pending (it is not resolved with the empty list), the error is taken
    by no handler and nothing is written to the console. *)
Theorem wait_pending_without_marker (parse_html : string -> list node)
    (s : surroundings) (events : list (nat * script_outcome)) :
  let pg := wait_run parse_html s Sample.plain_page events in
  wait pg = Pending /\
  wait pg <> Fulfilled [] /\
  unhandled pg = [Error "No ad placements found."] /\
  log (the_world pg) = [].
Proof.
  cbn zeta. rewrite wait_run_no_marker; [done|].
  intros e [->|Hin]%elem_of_cons; [reflexivity|by apply elem_of_nil in Hin].
Qed.

End BootstrapFacts.

(** ** More on keyword extraction *)

Section KeywordOrder.
Import JsString Keywords.

Implicit Types (h : hist) (tag w : string) (l : list (string * N)).

(** [a] may stand before [b] in the sorted list: its count is not the
    smaller one. *)
Lemma compare_entries_le a b :
  (compare_entries a b <=? 0)%Z = true <-> (b.2 <= a.2)%N.
Proof.
  unfold compare_entries.
  destruct (N.ltb_spec b.2 a.2), (N.ltb_spec a.2 b.2); cbn; split; try done; lia.
Qed.

Lemma insert_entry_perm a l : insert_entry a l ≡ₚ a :: l.
Proof.
  induction l as [|b r IH]; cbn [insert_entry]; [done|].
  destruct (compare_entries a b <=? 0)%Z; [done|].
  rewrite IH. apply Permutation_swap.
Qed.

Lemma sort_entries_perm l : sort_entries l ≡ₚ l.
Proof.
  induction l as [|a r IH]; cbn [sort_entries]; [done|].
  by rewrite insert_entry_perm, IH.
Qed.

Lemma insert_entry_sorted a l :
  StronglySorted (fun x y => (y.2 <= x.2)%N) l ->
  StronglySorted (fun x y => (y.2 <= x.2)%N) (insert_entry a l).
Proof.
  induction l as [|b r IH]; cbn [insert_entry]; intros Hs.
  - repeat constructor.
  - apply StronglySorted_inv in Hs as [Hr Hb].
    destruct (compare_entries a b <=? 0)%Z eqn:Hc.
    + apply compare_entries_le in Hc. constructor; [by constructor|].
      constructor; [done|]. eapply Forall_impl; [exact Hb|].
      cbn. intros x Hx. lia.
    + assert (a.2 < b.2)%N as Hlt.
      { destruct (N.le_gt_cases b.2 a.2) as [Hle|]; [|done].
        apply compare_entries_le in Hle. congruence. }
      constructor; [by apply IH|].
      rewrite insert_entry_perm. constructor; [lia|done].
Qed.

Lemma sort_entries_sorted l :
  StronglySorted (fun x y => (y.2 <= x.2)%N) (sort_entries l).
Proof.
  induction l as [|a r IH]; cbn [sort_entries]; [constructor|].
  by apply insert_entry_sorted.
Qed.

Lemma StronglySorted_take {A} (R : A -> A -> Prop) n (l : list A) :
  StronglySorted R l -> StronglySorted R (take n l).
Proof.
  revert n. induction l as [|a r IH]; intros [|n] Hs; cbn; try constructor.
  - apply IH. by apply StronglySorted_inv in Hs as [? _].
  - apply StronglySorted_inv in Hs as [_ Ha].
    eapply Forall_take in Ha. exact Ha.
Qed.

Lemma StronglySorted_lookup {A} (R : A -> A -> Prop) (l : list A) i j a b :
  StronglySorted R l -> i < j -> l !! i = Some a -> l !! j = Some b -> R a b.
Proof.
  intros Hs. revert i j. induction Hs as [|x r Hr IH Hx]; intros i j Hij Hi Hj.
  - by rewrite lookup_nil in Hi.
  - destruct j as [|j]; [lia|]. destruct i as [|i]; cbn in Hi, Hj.
    + injection Hi as <-. eapply Forall_forall in Hx; [exact Hx|].
      by eapply list_elem_of_lookup_2.
    + eapply IH; [|done..]. lia.
Qed.

(** The entries that [detectKeywords] keeps, in their order. *)
Lemma scan_page_entries textContent :
  exists top : list (string * N),
    scan_page textContent = top.*1 /\
    top = take MAX_KEYWORDS
            (sort_entries
               (List.filter (fun a => (MIN_KEYWORD_OCCURRENCES <=? a.2)%N)
                  (scan (split_ws textContent) 0 []))) /\
    forall tag n, (tag, n) ∈ top ->
      n = occurrences tag (analyzed_words textContent).
Proof.
  eexists. split; [reflexivity|]. split; [reflexivity|].
  intros tag n (i & Hin & _)%elem_of_take.
  apply list_elem_of_lookup_2 in Hin.
  apply (proj1 (sort_entries_elem _ _)) in Hin.
  apply list_elem_of_In, List.filter_In in Hin as [Hin _].
  by apply list_elem_of_In, scan_entries in Hin.
Qed.

(** X1. The tags that a scan of the page gives are ordered by their number
    of occurrences among the analysed words, the most frequent first. *)
Theorem scan_page_descending (textContent : string) (i j : nat)
    (t1 t2 : string) :
  i < j ->
  scan_page textContent !! i = Some t1 ->
  scan_page textContent !! j = Some t2 ->
  (occurrences t2 (analyzed_words textContent)
   <= occurrences t1 (analyzed_words textContent))%N.
Proof.
  intros Hij H1 H2.
  destruct (scan_page_entries textContent) as (top & Hsp & Htop & Hocc).
  rewrite Hsp in H1, H2.
  apply list_lookup_fmap_Some in H1 as ([a n1] & -> & H1).
  apply list_lookup_fmap_Some in H2 as ([b n2] & -> & H2).
  cbn [fst].
  rewrite <- (Hocc a n1) by (by eapply list_elem_of_lookup_2).
  rewrite <- (Hocc b n2) by (by eapply list_elem_of_lookup_2).
  assert (StronglySorted (fun x y => (y.2 <= x.2)%N) top) as Hs.
  { rewrite Htop. apply StronglySorted_take, sort_entries_sorted. }
  exact (StronglySorted_lookup _ _ _ _ _ _ Hs Hij H1 H2).
Qed.

Lemma scan_page_descending_witness :
  0 < 1 /\
  (occurrences "docker"
     (analyzed_words "docker rust Docker rust docker rust. rust")
   <= occurrences "rust"
        (analyzed_words "docker rust Docker rust docker rust. rust"))%N.
Proof.
  split; [lia|].
  apply (scan_page_descending "docker rust Docker rust docker rust. rust"
           0 1 "rust" "docker"); [lia|vm_compute; reflexivity..].
Defined.


Lemma filter_keys_NoDup (f : string * N -> bool) l :
  NoDup l.*1 -> NoDup (List.filter f l).*1.
Proof.
  induction l as [|a r IH]; [done|]. rewrite fmap_cons.
  intros [Ha Hr]%NoDup_cons. cbn [List.filter].
  destruct (f a); [|by apply IH].
  rewrite fmap_cons. apply NoDup_cons. split; [|by apply IH].
  intros ([k n] & Hk & Hin)%list_elem_of_fmap. apply Ha.
  apply list_elem_of_fmap. exists (k, n). split; [done|].
  apply list_elem_of_In. apply list_elem_of_In, List.filter_In in Hin. tauto.
Qed.

Lemma scan_keys_NoDup words x : NoDup (scan words x []).*1.
Proof.
  rewrite scan_fold.
  destruct (fold_count_word (take (N.to_nat (MAX_WORDS_ANALYZED - x)) words) [])
    as [Hnd _]; [apply NoDup_nil_2|]. exact Hnd.
Qed.

(** X2. No tag is returned twice. *)
Theorem scan_page_NoDup (textContent : string) : NoDup (scan_page textContent).
Proof.
  destruct (scan_page_entries textContent) as (top & -> & -> & _).
  rewrite fmap_take. eapply sublist_NoDup; [|apply sublist_take].
  rewrite sort_entries_perm. apply filter_keys_NoDup, scan_keys_NoDup.
Qed.

Lemma hist_get_Some_elem tag n h : hist_get tag h = Some n -> (tag, n) ∈ h.
Proof.
  induction h as [|[k m] r IH]; cbn [hist_get]; [done|].
  destruct (String.eqb_spec k tag) as [->|].
  - intros [= ->]. left.
  - intros H. right. by apply IH.
Qed.

Lemma scan_tally textContent tag :
  tally tag (scan (split_ws textContent) 0 [])
  = occurrences tag (analyzed_words textContent).
Proof.
  rewrite scan_fold, N.sub_0_r. fold (analyzed_words textContent).
  destruct (fold_count_word (analyzed_words textContent) []) as [_ Ht];
    [apply NoDup_nil_2|].
  rewrite Ht. unfold tally. cbn [hist_get default]. lia.
Qed.

(** X3. The tags returned are the most frequent ones: a tag that at least
    two of the analysed words stand for is returned, unless three tags are
    returned that are each at least as frequent. *)
Theorem scan_page_most_common (textContent : string) (tag : string) :
  (2 <= occurrences tag (analyzed_words textContent))%N ->
  tag ∈ scan_page textContent \/
  (length (scan_page textContent) = 3 /\
   forall t, t ∈ scan_page textContent ->
     (occurrences tag (analyzed_words textContent)
      <= occurrences t (analyzed_words textContent))%N).
Proof.
  intros Hocc.
  destruct (scan_page_entries textContent) as (top & Hsp & Htop & Hn).
  set (n := occurrences tag (analyzed_words textContent)) in *.
  set (sorted := sort_entries
                   (List.filter (fun a => (MIN_KEYWORD_OCCURRENCES <=? a.2)%N)
                      (scan (split_ws textContent) 0 []))) in *.
  assert ((tag, n) ∈ sorted) as Hin.
  { apply sort_entries_elem, list_elem_of_In, List.filter_In. split.
    - apply list_elem_of_In, hist_get_Some_elem.
      pose proof (scan_tally textContent tag) as Ht. fold n in Ht.
      unfold tally in Ht.
      destruct (hist_get tag _) as [m|]; cbn in Ht; [by subst|lia].
    - cbn. apply N.leb_le. exact Hocc. }
  apply list_elem_of_lookup_1 in Hin as [k Hk].
  destruct (decide (k < MAX_KEYWORDS)) as [Hlt|Hge].
  - left. rewrite Hsp, Htop. apply list_elem_of_fmap. exists (tag, n).
    split; [done|]. eapply list_elem_of_lookup_2.
    rewrite lookup_take_lt by exact Hlt. exact Hk.
  - right. pose proof (lookup_lt_Some _ _ _ Hk) as Hlen.
    change MAX_KEYWORDS with 3 in *. split.
    + rewrite Hsp, Htop, length_fmap, length_take. lia.
    + intros t HT. rewrite Hsp in HT.
      apply list_elem_of_fmap in HT as ([t' m] & -> & Hm). cbn [fst].
      rewrite <- (Hn t' m Hm). rewrite Htop in Hm.
      apply elem_of_take in Hm as (i & Hi & Hi3).
      pose proof (StronglySorted_lookup _ _ i k _ _
                    (sort_entries_sorted _) ltac:(lia) Hi Hk) as Hle.
      exact Hle.
Qed.

Lemma scan_page_most_common_witness :
  (2 <= occurrences "rust" (analyzed_words "Rust, docker and rust."))%N /\
  ("rust" ∈ scan_page "Rust, docker and rust." \/
   (length (scan_page "Rust, docker and rust.") = 3 /\
    forall t, t ∈ scan_page "Rust, docker and rust." ->
      (occurrences "rust" (analyzed_words "Rust, docker and rust.")
       <= occurrences t (analyzed_words "Rust, docker and rust."))%N)).
Proof.
  assert (2 <= occurrences "rust" (analyzed_words "Rust, docker and rust."))%N
    as H by (vm_compute; discriminate).
  split; [exact H|].
  exact (scan_page_most_common "Rust, docker and rust." "rust" H).
Defined.

(** X4. The words after the first [MAX_WORDS_ANALYZED] = 9999 are not
    looked at: they change nothing in the histogram. *)
Theorem scan_cutoff (words extra : list string) (h : hist) :
  (9999 <= N.of_nat (length words))%N ->
  scan (words ++ extra) 0 h = scan words 0 h.
Proof.
  intros Hlen. rewrite !scan_fold, N.sub_0_r.
  rewrite take_app_le; [done|]. change MAX_WORDS_ANALYZED with 9999%N. lia.
Qed.

Lemma scan_cutoff_witness :
  (9999 <= N.of_nat (length (replicate (N.to_nat 9999) "rust")))%N /\
  scan (replicate (N.to_nat 9999) "rust" ++ ["docker"; "docker"]) 0 []
  = scan (replicate (N.to_nat 9999) "rust") 0 [].
Proof.
  assert (9999 <= N.of_nat (length (replicate (N.to_nat 9999) "rust")))%N
    as H by (rewrite length_replicate; lia).
  split; [exact H|].
  exact (scan_cutoff (replicate (N.to_nat 9999) "rust") ["docker"; "docker"] [] H).
Defined.

Lemma strip_closing_snoc (c : ascii) w :
  closing c = true -> strip_closing (w +:+ String c "") = w.
Proof.
  intros Hc. induction w as [|a r IH].
  - change ("" +:+ String c "") with (String c ""). cbn [strip_closing].
    by rewrite Hc.
  - change (String a r +:+ String c "") with (String a (r +:+ String c "")).
    cbn [strip_closing]. rewrite IH.
    destruct r; reflexivity.
Qed.

Lemma line_free_app (a b : string) :
  line_free (a +:+ b) = line_free a && line_free b.
Proof.
  induction a as [|c r IH]; [done|].
  change (String c r +:+ b) with (String c (r +:+ b)). cbn [line_free].
  rewrite IH. by rewrite andb_assoc.
Qed.

Lemma opening_line c : opening c = true -> line_terminator c = false.
Proof. destruct c as [[] [] [] [] [] [] [] []]; done. Qed.

Lemma closing_line c : closing c = true -> line_terminator c = false.
Proof. destruct c as [[] [] [] [] [] [] [] []]; done. Qed.

(** The words of the page hold no white space, hence no line terminator:
    the expression matches each of them. *)
Lemma no_space_line_free w : no_space w = true -> line_free w = true.
Proof.
  induction w as [|c r IH]; [done|]. cbn [no_space line_free].
  intros [Hc Hr]%andb_true_iff. rewrite (IH Hr), andb_true_r.
  destruct c as [[] [] [] [] [] [] [] []]; done.
Qed.

(** X5. One opening character (a parenthesis or a quote) before a word and
    one closing character (punctuation, a parenthesis or a quote) after it
    are taken off before the word is looked up, whatever the word is as long
    as it holds no line feed and no carriage return (no word of the page
    does); what is looked up is the word in lower case. *)
Theorem normalize_strips (o c : ascii) (w : string) :
  opening o = true -> closing c = true -> line_free w = true ->
  wordTrimmer (String o (w +:+ String c "")) = w /\
  normalize (String o (w +:+ String c "")) = toLowerCase w.
Proof.
  intros Ho Hc Hw. unfold normalize, wordTrimmer.
  assert (line_free (String o (w +:+ String c "")) = true) as ->.
  { cbn [line_free]. rewrite line_free_app, Hw, (opening_line _ Ho).
    cbn [line_free]. by rewrite (closing_line _ Hc). }
  rewrite Ho. by rewrite strip_closing_snoc.
Qed.

Lemma normalize_strips_witness :
  opening "(" = true /\ closing "." = true /\ line_free "Kubernetes" = true /\
  normalize "(Kubernetes." = "kubernetes".
Proof.
  split; [reflexivity|]. split; [reflexivity|]. split; [reflexivity|].
  exact (proj2 (normalize_strips "(" "." "Kubernetes" eq_refl eq_refl eq_refl)).
Defined.

(** A string that holds a line terminator is not matched: it is looked up
    as it is, in lower case. *)
Lemma wordTrimmer_line w : line_free w = false -> wordTrimmer w = w.
Proof. intros H. unfold wordTrimmer. by rewrite H. Qed.

Lemma lower_char_idem c : lower_char (lower_char c) = lower_char c.
Proof. destruct c as [[] [] [] [] [] [] [] []]; reflexivity. Qed.

Lemma lower_char_opening c : opening (lower_char c) = opening c.
Proof. destruct c as [[] [] [] [] [] [] [] []]; reflexivity. Qed.

Lemma lower_char_closing c : closing (lower_char c) = closing c.
Proof. destruct c as [[] [] [] [] [] [] [] []]; reflexivity. Qed.

Lemma toLowerCase_idem w : toLowerCase (toLowerCase w) = toLowerCase w.
Proof.
  induction w as [|c r IH]; [done|]. cbn [toLowerCase].
  by rewrite lower_char_idem, IH.
Qed.

Lemma strip_closing_lower w :
  strip_closing (toLowerCase w) = toLowerCase (strip_closing w).
Proof.
  induction w as [|c r IH]; [done|]. cbn [toLowerCase strip_closing].
  destruct r as [|c' r'].
  - cbn [toLowerCase]. rewrite lower_char_closing. by destruct (closing c).
  - cbn [toLowerCase] in *. cbn [strip_closing] in *. by rewrite IH.
Qed.

Lemma lower_char_line c : line_terminator (lower_char c) = line_terminator c.
Proof. destruct c as [[] [] [] [] [] [] [] []]; reflexivity. Qed.

Lemma toLowerCase_line w : line_free (toLowerCase w) = line_free w.
Proof.
  induction w as [|c r IH]; [done|]. cbn [toLowerCase line_free].
  by rewrite lower_char_line, IH.
Qed.

Lemma wordTrimmer_lower w :
  wordTrimmer (toLowerCase w) = toLowerCase (wordTrimmer w).
Proof.
  unfold wordTrimmer. rewrite toLowerCase_line.
  destruct (line_free w); [|done].
  destruct w as [|c r]; [done|]. cbn [toLowerCase].
  rewrite lower_char_opening. destruct (opening c).
  - apply strip_closing_lower.
  - apply (strip_closing_lower (String c r)).
Qed.

(** X6. The case of the letters of the page does not matter: a word stands
    for a tag exactly if the word in lower case does, so that the number of
    occurrences of a tag is that of the page in lower case. *)
Theorem occurrences_case_insensitive (tag : string) (words : list string) :
  occurrences tag (map toLowerCase words) = occurrences tag words.
Proof.
  induction words as [|w r IH]; [done|].
  cbn [map]. rewrite !occurrences_cons, IH. f_equal.
  unfold stands_for, normalize.
  by rewrite wordTrimmer_lower, toLowerCase_idem.
Qed.

End KeywordOrder.

(** ** More on the factory and the request *)

Section RequestFacts.
Import JsString Js Dom Placement.




(** X9. Writing keywords into the attribute and reading them back gives
    the same keywords: a list of words of at least two code units without
    [|], joined by [|], is read by the factory as that list. *)
Theorem pipe_list_join (l : list string) :
  Forall (fun w => free_of "|" w = true /\ 1 < String.length w) l ->
  pipe_list (Some (join "|" l)) = l.
Proof.
  intros Hl. unfold pipe_list.
  destruct l as [|w r]; [reflexivity|].
  change (default "" (Some (join "|" (w :: r)))) with (join "|" (w :: r)).
  rewrite split_join; [|done|eapply Forall_impl; [exact Hl|by intros ? [? ?]]].
  apply forallb_filter_id. apply forallb_forall. intros x Hx.
  apply list_elem_of_In in Hx. eapply Forall_forall in Hl as [_ Hlen]; [|exact Hx].
  by apply Nat.ltb_lt.
Qed.

Lemma pipe_list_join_witness :
  Forall (fun w => free_of "|" w = true /\ 1 < String.length w)
    ["python"; "data science"] /\
  pipe_list (Some "python|data science") = ["python"; "data science"].
Proof.
  assert (Forall (fun w => free_of "|" w = true /\ 1 < String.length w)
            ["python"; "data science"]) as H.
  { repeat constructor; cbn; lia. }
  split; [exact H|]. exact (pipe_list_join ["python"; "data science"] H).
Defined.

Lemma split_free sep (s w : string) : w ∈ split sep s -> free_of sep w = true.
Proof.
  revert w. induction s as [|c r IH]; intros w; cbn [split].
  - by intros ->%list_elem_of_singleton.
  - destruct (Ascii.eqb c sep) eqn:Hc.
    + intros [->|Hin]%elem_of_cons; [done|by apply IH].
    + destruct (split sep r) as [|w0 ws] eqn:Hs.
      * intros ->%list_elem_of_singleton. cbn. by rewrite Hc.
      * intros [->|Hin]%elem_of_cons.
        -- cbn. rewrite Hc. cbn. apply IH. left.
        -- apply IH. by right.
Qed.

(** X10. Whatever the attribute holds, the words that the factory reads
    from it have at least two code units and no [|]: empty pieces and single
    characters are dropped. *)
Theorem pipe_list_words (attr : option string) (w : string) :
  w ∈ pipe_list attr -> 2 <= String.length w /\ free_of "|" w = true.
Proof.
  unfold pipe_list. intros Hin.
  apply list_elem_of_In, List.filter_In in Hin as [Hin Hlen].
  apply Nat.ltb_lt in Hlen. split; [lia|].
  eapply split_free. apply list_elem_of_In. exact Hin.
Qed.

Lemma pipe_list_words_witness :
  "ml" ∈ pipe_list (Some "a||ml|") /\ 2 <= String.length "ml".
Proof.
  assert ("ml" ∈ pipe_list (Some "a||ml|")) as H by (vm_compute; left).
  split; [exact H|]. exact (proj1 (pipe_list_words (Some "a||ml|") "ml" H)).
Defined.

Lemma pretty_N_go_free x (s : string) :
  free_of "_" s = true -> free_of "_" (pretty_N_go x s) = true.
Proof.
  revert s. induction (N.lt_wf_0 x) as [x _ IH]; intros s Hs.
  assert (x = 0 \/ 0 < x)%N as [->|Hpos] by lia.
  - by rewrite pretty_N_go_0.
  - rewrite pretty_N_go_step by done. apply IH; [by apply N.div_lt|].
    cbn [free_of]. rewrite Hs, andb_true_r.
    unfold pretty_N_char. by repeat case_match.
Qed.

Lemma of_number_free n : free_of "_" (of_number n) = true.
Proof.
  unfold of_number, pretty, pretty_N.
  destruct (decide (n = 0%N)); [done|]. by apply pretty_N_go_free.
Qed.

Lemma append_sep_inj sep (a a' b b' : string) :
  free_of sep a = true -> free_of sep a' = true ->
  a +:+ String sep b = a' +:+ String sep b' -> a = a' /\ b = b'.
Proof.
  revert a'. induction a as [|c r IH]; intros [|c' r'].
  - intros _ _ [= ->]. done.
  - intros _ Hf [= <- _]. cbn in Hf. by rewrite Ascii.eqb_refl in Hf.
  - intros Hf _ [= -> _]. cbn in Hf. by rewrite Ascii.eqb_refl in Hf.
  - intros [_ Hr]%andb_true_iff [_ Hr']%andb_true_iff [= -> Heq].
    destruct (IH r' Hr Hr' Heq) as [-> ->]. done.
Qed.

(** X8. Two calls of [fetch()] register the same callback name exactly
    when they read the same [Date.now()] and draw the same random number:
    the name tells the time and the number apart, so that requests made at
    different times, or with different numbers, never share a callback. *)
Theorem callback_name_collides (c1 c2 : clock) :
  callback_name c1 = callback_name c2 <->
  now c1 = now c2 /\ random c1 = random c2.
Proof.
  unfold callback_name. split; [|by intros [-> ->]].
  intros [= H].
  apply append_sep_inj in H as [Hn Hr]; [|apply of_number_free..].
  split; by apply (inj pretty).
Qed.

End RequestFacts.

(** ** More on the factory, the fetch and the showing of the ad *)

Section LoadFacts.
Import JsString Js Dom Placement.

(** X12. All that [from_element] writes to the element is the default of
    [data-ea-type]: the tag, the children and every other attribute are as
    they were, the element has a type that is not empty afterwards, and an
    element that had one is not written at all. *)
Theorem from_element_frame (target : nat) (element : Dom.element) :
  let element' := (from_element target element).1.1 in
  tag element' = tag element /\
  children element' = children element /\
  attr_truthy (getAttribute element' "data-ea-type") = true /\
  (forall k, k <> "data-ea-type" ->
             getAttribute element' k = getAttribute element k) /\
  (attr_truthy (getAttribute element "data-ea-type") = true ->
   element' = element).
Proof.
  cbn zeta. rewrite from_element_target. unfold with_default_type.
  change (ATTR_PREFIX +:+ "type") with "data-ea-type".
  destruct (attr_truthy (getAttribute element "data-ea-type")) eqn:Ht.
  - by split_and!.
  - unfold getAttribute, setAttribute. cbn [attrs tag children].
    split_and!; try done.
    + by rewrite lookup_insert_eq.
    + intros k Hk. by rewrite lookup_insert_ne.
Qed.

(** X13. The ad type of a placement that the factory makes is never empty
    and never the bare [image] or [text]: these two get the version suffix
    (a missing or empty type counts as [image]), and any other type is sent
    as the attribute has it. *)
Theorem from_element_ad_type (target : nat) (element : Dom.element)
    (p : Placement.t) :
  (from_element target element).2 = Some p ->
  ad_type p <> "" /\ ad_type p <> "image" /\ ad_type p <> "text" /\
  match getAttribute element "data-ea-type" with
  | None => ad_type p = "image-v1"
  | Some ty =>
      if String.eqb ty "" || String.eqb ty "image" then ad_type p = "image-v1"
      else if String.eqb ty "text" then ad_type p = "text-v1"
      else ad_type p = ty
  end.
Proof.
  unfold from_element. change (ATTR_PREFIX +:+ "type") with "data-ea-type".
  destruct (getAttribute element "data-ea-type") as [ty|] eqn:Hty;
    cbn [attr_truthy default];
    [destruct (String.eqb_spec ty "") as [->|Hne]; cbn [negb orb];
     [|destruct (String.eqb_spec ty "image") as [->|Hni]; cbn [orb];
       [|destruct (String.eqb_spec ty "text") as [->|Hnt]]]|];
    match goal with |- context [includes ?x ?l] => destruct (includes x l) end;
    cbn [snd]; try done; intros [= <-]; cbn [ad_type new];
    try change ("image" +:+ "-v" +:+ of_number AD_TYPES_VERSION) with "image-v1";
    try change ("text" +:+ "-v" +:+ of_number AD_TYPES_VERSION) with "text-v1";
    repeat match goal with
           | H : ?a <> ?b |- context [String.eqb ?a ?b] =>
               rewrite (proj2 (String.eqb_neq a b) H)
           end;
    cbn [orb]; split_and!; done.
Qed.

Lemma from_element_ad_type_witness :
  (from_element 1 Sample.marker).2 <> None /\
  exists p, (from_element 1 Sample.marker).2 = Some p /\ ad_type p = "text-v1".
Proof.
  split; [vm_compute; discriminate|].
  destruct (from_element 1 Sample.marker).2 as [p|] eqn:Hp; [|vm_compute in Hp; discriminate].
  exists p. split; [reflexivity|].
  pose proof (from_element_ad_type 1 Sample.marker p Hp) as (_ & _ & _ & H).
  exact H.
Defined.


(** X14. A [fetch()] has three outcomes and no other: its promise is
    fulfilled with [undefined] exactly when the script fails to load, it is
    fulfilled with [null] or with a DOM node when the script calls the
    callback, it stays pending when the script loads without calling the
    callback, and it is never rejected. *)
Theorem fetch_outcomes (parse_html : string -> list node) (p : Placement.t)
    (o : script_outcome) :
  match settled (fetch parse_html p o).1 with
  | Pending => o = Loaded []
  | Fulfilled v =>
      (v = Undefined /\ o = LoadError) \/
      ((v = Null \/ is_node v = true) /\ exists r rs, o = Loaded (r :: rs))
  | Rejected _ => False
  end.
Proof.
  destruct o as [|[|r rs]].
  - cbn. by left.
  - by cbn.
  - cbn [fetch call_all]. unfold deliver, fetch_start.
    destruct (window_callback_cases parse_html (Fetching p Pending) r)
      as [(_ & v & Hv & ->)|(_ & ->)]; cbn [settled self resolve].
    + destruct (call_all_settled parse_html
                  (Fetching (set_response p r) (Fulfilled v)) rs) as [Hs _];
        [done|].
      destruct (call_all parse_html _ rs) as [f2 e2]. cbn [fst settled] in *.
      rewrite Hs. right. split; [done|]. by exists r, rs.
    + destruct (call_all_settled parse_html (Fetching p (Fulfilled Null)) rs)
        as [Hs _]; [done|].
      destruct (call_all parse_html _ rs) as [f2 e2]. cbn [fst settled] in *.
      rewrite Hs. right. split; [by left|]. by exists r, rs.
Qed.

(** X15. The first call of the callback decides: what the script calls
    the callback with afterwards does not change the value of the
    promise. *)
Theorem fetch_first_call_wins (parse_html : string -> list node)
    (p : Placement.t) (r : value) (rs : list value) :
  settled (fetch parse_html p (Loaded (r :: rs))).1
  = settled (fetch parse_html p (Loaded [r])).1.
Proof.
  cbn [fetch call_all]. unfold deliver.
  destruct (window_callback_returns parse_html (fetch_start p) r)
    as (p' & v & ->).
  cbn [fetch_start settled resolve].
  destruct (call_all_settled parse_html (Fetching p' (Fulfilled v)) rs)
    as [Hs _]; [done|].
  destruct (call_all parse_html _ rs) as [f2 e2]. cbn [fst settled] in *.
  exact Hs.
Qed.

Lemma call_all_well_formed parse_html f responses :
  (forall n, settled f = Fulfilled (DomNode n) ->
             well_formed (response (self f)) = true) ->
  forall n, settled (call_all parse_html f responses).1 = Fulfilled (DomNode n) ->
            well_formed (response (self (call_all parse_html f responses).1)) = true.
Proof.
  revert f. induction responses as [|r rest IH]; intros f Hf; [exact Hf|].
  cbn [call_all]. unfold deliver.
  destruct (window_callback_cases parse_html f r)
    as [(Hwf & v & Hv & ->)|(Hwf & ->)].
  - specialize (IH (Fetching (set_response (self f) r) (resolve v (settled f)))).
    destruct (call_all parse_html _ rest) as [f2 e2]. cbn [fst] in *.
    apply IH. intros n _. exact Hwf.
  - specialize (IH (Fetching (self f) (resolve Null (settled f)))).
    destruct (call_all parse_html _ rest) as [f2 e2]. cbn [fst] in *.
    apply IH. cbn [settled self]. intros n Hn. apply (Hf n).
    by destruct (settled f).
Qed.

Lemma inViewport_well_formed p in_view vis :
  well_formed (response p) = true ->
  Tracker.inViewport p in_view vis
  = Returned (in_view && Tracker.visibility_eqb vis Tracker.visible).
Proof.
  unfold well_formed, Tracker.inViewport, and_then.
  intros [Hr Hg]%andb_true_iff. cbn [bind]. rewrite Hr.
  destruct (get (response p) "html") as [h|]; [|done].
  destruct (get (response p) "view_url") as [u|]; [|done].
  apply andb_true_iff in Hg as [_ Hu]. cbn [bind]. by rewrite Hu.
Qed.

(** X16. A placement whose [fetch()] gave a DOM node holds a response
    with a truthy [html] and a truthy [view_url], whatever the script called
    the callback with and how often; for such a placement [inViewport]
    answers what the geometry and the visibility of the page say, so that
    the view of an ad that is shown is counted. *)
Theorem fetch_node_response (parse_html : string -> list node)
    (p : Placement.t) (o : script_outcome) (n : node) :
  settled (fetch parse_html p o).1 = Fulfilled (DomNode n) ->
  let p' := self (fetch parse_html p o).1 in
  well_formed (response p') = true /\
  forall in_view vis,
    Tracker.inViewport p' in_view vis
    = Returned (in_view && Tracker.visibility_eqb vis Tracker.visible).
Proof.
  intros Hn. cbn zeta.
  assert (well_formed (response (self (fetch parse_html p o).1)) = true) as Hwf.
  { destruct o as [|rs]; [done|]. cbn [fetch] in *.
    eapply call_all_well_formed; [|exact Hn]. done. }
  split; [exact Hwf|]. intros in_view vis. by apply inViewport_well_formed.
Qed.

Lemma fetch_node_response_witness :
  settled (fetch Sample.parse_html Sample.placement
             (Loaded [Sample.response; Sample.no_ad])).1
  = Fulfilled (DomNode (Elem "div" {[ "class" := "ea-content" ]}
                 [Text "<div class='ea-content'>An ethical ad</div>"])) /\
  well_formed
    (response (self (fetch Sample.parse_html Sample.placement
                       (Loaded [Sample.response; Sample.no_ad])).1)) = true.
Proof.
  assert (settled (fetch Sample.parse_html Sample.placement
                     (Loaded [Sample.response; Sample.no_ad])).1
          = Fulfilled (DomNode (Elem "div" {[ "class" := "ea-content" ]}
                         [Text "<div class='ea-content'>An ethical ad</div>"])))
    as H by reflexivity.
  split; [exact H|].
  exact (proj1 (fetch_node_response _ _ _ _ H)).
Defined.


(** X17. Whatever the ad node holds, [applyStyles] leaves its tag, its
    attributes and its children in place and appends the hide control of
    the style after them: for [stickybox] a [div] of class
    [ea-stickybox-hide] that holds the multiplication sign, for
    [fixedfooter] a [div] of class [ea-fixedfooter-hide] that holds a
    [span] with the text [Close Ad], and nothing for any other style (or
    none).  On a text node it throws for these two styles and does nothing
    otherwise. *)
Theorem applyStyles_appends (p : Placement.t) (tg : string)
    (a : gmap string string) (cs : list node) (data : string) :
  applyStyles p (Elem tg a cs)
  = Returned
      (Elem tg a
         (cs ++
          if bool_decide (style p = Some "stickybox") then
            [Elem "div" {[ "class" := "ea-stickybox-hide" ]}
               [Text (String (ascii_of_N 215) "")]]
          else if bool_decide (style p = Some "fixedfooter") then
            [Elem "div" {[ "class" := "ea-fixedfooter-hide" ]}
               [Elem "span" ∅ [Text "Close Ad"]]]
          else [])) /\
  (if styled p
   then exists e, applyStyles p (Text data) = Thrown e
   else applyStyles p (Text data) = Returned (Text data)).
Proof.
  unfold applyStyles, styled.
  destruct (style p) as [st|]; [|split; [by rewrite app_nil_r|done]].
  destruct (decide (st = "stickybox")) as [->|Hs].
  - split; [reflexivity|]. cbn. by eexists.
  - rewrite (bool_decide_eq_false_2 (Some st = Some "stickybox"))
      by congruence.
    destruct (decide (st = "fixedfooter")) as [->|Hf].
    + split; [reflexivity|]. cbn. by eexists.
    + rewrite (bool_decide_eq_false_2 (Some st = Some "fixedfooter"))
        by congruence.
      split; [by rewrite app_nil_r|done].
Qed.

(** X18. When the [fetch()] gives nothing to show ([undefined], [null] or
    any falsy value), the first callback of [load()] throws a warning before
    it has written anything: the target element is as it was, without the
    class [loaded], so that the element can be loaded again. *)
Theorem load_show_nothing (p : Placement.t) (el : Dom.element) (v : value) :
  truthy v = false ->
  load_show p el v
  = Thrown (EthicalAdsWarning
              (match v with
               | Undefined => "Ad decision request blocked"
               | _ => "No ads to show."
               end)) /\
  load_show_dom p el v = el.
Proof.
  intros Hv. unfold load_show, load_show_dom.
  destruct v; try done; by rewrite Hv.
Qed.

Lemma load_show_nothing_witness :
  truthy Null = false /\
  load_show_dom Sample.placement Sample.marker Null = Sample.marker.
Proof.
  split; [reflexivity|].
  exact (proj2 (load_show_nothing Sample.placement Sample.marker Null eq_refl)).
Defined.

(** X19. When the first callback of [load()] returns, the target element
    has exactly one child, the ad node with the hide control of its style if
    it has one, whatever children it had before; its class is the old one
    followed by [loaded], trimmed; its tag and its other attributes are as
    they were. *)
Theorem load_show_only_child (p : Placement.t) (el el' : Dom.element)
    (v : value) :
  load_show p el v = Returned el' ->
  load_show_dom p el v = el' /\
  (exists n n', v = DomNode n /\ applyStyles p n = Returned n' /\
                children el' = [n']) /\
  className el' = trim (className el +:+ " loaded") /\
  tag el' = tag el /\
  forall k, k <> "class" -> getAttribute el' k = getAttribute el k.
Proof.
  unfold load_show, load_show_dom.
  destruct v as [| |b|z|str|props|n]; try done;
    destruct (negb (truthy _)); try done.
  destruct (applyStyles p n) as [n'|] eqn:Hn; [|done].
  cbn [bind]. intros [= <-].
  unfold appendChild, removeChildren, set_className, setAttribute, className,
    getAttribute. cbn [tag attrs children app].
  split_and!; try done.
  - by exists n, n'.
  - by rewrite lookup_insert_eq.
  - intros k Hk. by rewrite lookup_insert_ne.
Qed.

Lemma load_show_only_child_witness :
  exists el',
    load_show Sample.placement Sample.loaded_marker
      (DomNode (Elem "div" ∅ [Text "ad"])) = Returned el' /\
    children el' = [Elem "div" ∅ [Text "ad"]].
Proof.
  destruct (load_show Sample.placement Sample.loaded_marker
              (DomNode (Elem "div" ∅ [Text "ad"]))) as [el'|] eqn:H;
    [|vm_compute in H; discriminate].
  exists el'. split; [reflexivity|].
  destruct (load_show_only_child _ _ _ _ H) as (_ & (n & n' & Hv & Hn & Hc) & _).
  rewrite Hc. injection Hv as <-. vm_compute in Hn. by injection Hn as <-.
Defined.

(** X20. When the first callback of [load()] throws although there is an
    ad to show (the styling of the node fails), the target element has
    already lost its children and has the class [loaded]: it is left empty,
    and [from_element] will refuse it from then on. *)
Theorem load_show_failure_marks (p : Placement.t) (el : Dom.element)
    (v : value) (e : error) (target : nat) :
  truthy v = true ->
  load_show p el v = Thrown e ->
  let el' := load_show_dom p el v in
  children el' = [] /\
  includes "loaded" (split " " (className el')) = true /\
  (from_element target el').2 = None.
Proof.
  intros Hv Hshow. cbn zeta.
  assert (load_show_dom p el v
          = removeChildren
              (set_className el (trim (className el +:+ " loaded")))) as ->.
  { unfold load_show in Hshow. unfold load_show_dom.
    destruct v as [| |b|z|str|props|n]; try done; rewrite Hv in *;
      cbn [negb] in *; try done.
    by destruct (applyStyles p n). }
  assert (includes "loaded"
            (split " " (className
               (removeChildren
                  (set_className el (trim (className el +:+ " loaded"))))))
          = true) as Hl.
  { unfold className at 1, removeChildren, set_className, setAttribute.
    cbn [attrs]. rewrite lookup_insert_eq. cbn [default from_option id].
    apply loaded_class_included. }
  split; [done|]. split; [exact Hl|].
  by rewrite (from_element_loaded_None _ _ Hl).
Qed.

Lemma load_show_failure_marks_witness :
  truthy (DomNode (Text " ")) = true /\
  load_show Sample.sticky Sample.marker (DomNode (Text " "))
  = Thrown (TypeError "HierarchyRequestError") /\
  children (load_show_dom Sample.sticky Sample.marker (DomNode (Text " "))) = [].
Proof.
  split; [reflexivity|]. split; [reflexivity|].
  exact (proj1 (load_show_failure_marks Sample.sticky Sample.marker
                  (DomNode (Text " ")) (TypeError "HierarchyRequestError") 0
                  eq_refl eq_refl)).
Defined.

End LoadFacts.

(** ** More on the tracking *)

Section TrackerMore.
Import JsString Js Dom Placement Tracker.

Implicit Types (s : state) (e : event) (es : list event).




(** X22. The view time that is reported is the counter at that moment,
    a whole number of seconds from 1 to 300: the step that sets
    [view_time_sent] appends one pixel whose address is the
    [view_time_url] of the response followed by [?view_time=] and the
    counter. *)
Theorem view_time_reported (p : Placement.t) (el : Dom.element) (u : bool)
    (es : list event) (e : event) :
  view_time p = 0%Z ->
  let s := run (start p el u) es in
  view_time_sent (placement s) = false ->
  view_time_sent (placement (step s e)) = true ->
  (1 <= view_time (placement s) <= 300)%Z /\
  exists url,
    get (response (placement s)) "view_time_url" = Returned url /\
    children (target_el (step s e))
    = children (target_el s)
      ++ [pixel (to_string url +:+ "?view_time="
                 +:+ of_number (Z.to_N (view_time (placement s))))].
Proof.
  intros H0. cbn zeta. intros Hs Hs'.
  assert (capped (run (start p el u) es)) as [Hr _].
  { apply run_capped. unfold capped, viewed. cbn. rewrite H0.
    unfold VIEW_TIME_MAX. lia. }
  set (s := run (start p el u) es) in *.
  destruct (step_race s e) as [Heq|Heq]; rewrite Heq in *; [congruence|].
  unfold race_step in *.
  destruct (force_cases e s) as [Hsame|Hc]; [rewrite Hsame in Hs'; congruence|].
  apply call_cases in Hc
    as [[Hx _]|[(_ & Hx & _)|(_ & _ & _ & Hpos & vis & url & _ & _ & Hu & _ & _ & Hch)]];
    unfold sent, viewed in *; [congruence..|].
  unfold VIEW_TIME_MAX in Hr. split; [lia|]. exists url. split; [exact Hu|].
  rewrite Hch. do 3 f_equal. unfold to_string.
  destruct (view_time (placement s)); [lia|reflexivity|lia].
Qed.

Lemma view_time_reported_witness :
  view_time Sample.placement = 0%Z /\
  pixels (run Sample.tracking
            [ViewTimeTick true visible; ViewTimeTick true visible;
             VisibilityChange hidden])
  = ["https://server.ethicalads.io/proxy/view-time/1/?view_time=2"] /\
  (1 <= view_time (placement (run Sample.tracking
                                [ViewTimeTick true visible;
                                 ViewTimeTick true visible])) <= 300)%Z.
Proof.
  split; [reflexivity|]. split; [reflexivity|].
  exact (proj1 (view_time_reported Sample.placement Sample.marker false
                  [ViewTimeTick true visible; ViewTimeTick true visible]
                  (VisibilityChange hidden) eq_refl eq_refl eq_refl)).
Defined.

(** X23. The counter never goes down, it grows by at most one second at a
    time, and once the report is sent it does not change any more: the
    value that was reported stays the value of the placement. *)
Theorem view_time_monotone (s : state) (e : event) :
  (view_time (placement s) <= view_time (placement (step s e))
   <= view_time (placement s) + 1)%Z /\
  (view_time_sent (placement s) = true ->
   view_time (placement (step s e)) = view_time (placement s) /\
   view_time_sent (placement (step s e)) = true).
Proof.
  destruct (step_race s e) as [->| ->]; [split; [lia|done]|].
  unfold race_step.
  destruct (force_cases e s) as [->|Hc]; [split; [lia|done]|].
  apply call_cases in Hc
    as [[Hs Hv]|[(Hf & _ & Hv & _)|(Hf & Ht & Hv & _)]];
    unfold sent, viewed, VIEW_TIME_INTERVAL in *; rewrite Hv.
  - split; [lia|]. intros H. split; [done|congruence].
  - split; [lia|]. congruence.
  - split; [lia|]. congruence.
Qed.

(** The view pixel of an uplifted ad: the address to which [?uplift=true]
    is added is the one that the browser has resolved, here from a path on
    the server of the page. *)
Example view_pixel_uplifted :
  let p := set_response Sample.placement
             (Object [ ("html", Str "<div>ad</div>");
                       ("view_url", Str "/proxy/view/1/") ]) in
  let href url := "https://docs.example.org" +:+ url in
  pixels (run (start p Sample.marker false)
            [AbpDetected true; ViewportTick true visible href])
  = ["https://docs.example.org/proxy/view/1/?uplift=true"] /\
  pixels (run (start p Sample.marker false)
            [ViewportTick true visible href])
  = ["/proxy/view/1/"].
Proof. vm_compute. done. Qed.

End TrackerMore.

(** ** The probe for the Acceptable Ads list *)

Section AbpFacts.
Import Abp.

Implicit Types (s : state) (e : event) (es : list event).

Ltac abp_cases :=
  unfold checkImages, set_error1, set_error2, beforeCheck;
  repeat match goal with
         | |- context [if ?b then _ else _] => destruct b eqn:?
         end; cbn in *.

Lemma step_image_keeps s e :
  is_timeout e = false ->
  timer (step s e) = timer s /\ calls (step s e) = calls s /\
  waited (step s e) = waited s.
Proof. destruct e; cbn [is_timeout step]; try done; intros _; abp_cases; done. Qed.

Lemma step_polling s e : polling s -> polling (step s e).
Proof.
  intros Hp. destruct (is_timeout e) eqn:He.
  - destruct e; try done. cbn [step].
    destruct Hp as [(Hc & [[Ht Hw]|[[Ht Hw]|[Ht Hw]]])|(Hc & Ht & Hw)];
      rewrite Ht; [..|by right];
      unfold beforeCheck, polling; cbn [checksRemain detected calls waited timer];
      rewrite Hc, Hw;
      destruct (checksRemain s =? 0)%Z; cbn; intuition (auto; lia).
  - destruct (step_image_keeps s e He) as (Ht & Hc & Hw).
    unfold polling. rewrite Ht, Hc, Hw. exact Hp.
Qed.

Lemma step_polls_left s e :
  polling s ->
  polls_left (step s e) <= polls_left s - (if is_timeout e then 1 else 0).
Proof.
  intros Hp. destruct (is_timeout e) eqn:He.
  - destruct e; try done. cbn [step]. unfold polls_left.
    destruct Hp as [(Hc & [[Ht Hw]|[[Ht Hw]|[Ht Hw]]])|(Hc & Ht & Hw)];
      rewrite Ht; [..|cbn; rewrite Ht; lia];
      unfold beforeCheck; cbn [checksRemain timer];
      destruct (checksRemain s =? 0)%Z; cbn; first [lia|vm_compute; lia].
  - destruct (step_image_keeps s e He) as (Ht & _). unfold polls_left.
    rewrite Ht. lia.
Qed.

Lemma start_polling : polling start.
Proof. left. cbn. auto. Qed.

Lemma fold_polling es s :
  polling s ->
  polling (fold_left step es s) /\
  polls_left (fold_left step es s) <= polls_left s - timeouts es.
Proof.
  revert s. induction es as [|e r IH]; intros s Hp.
  - cbn. split; [done|]. unfold timeouts. cbn. lia.
  - cbn [fold_left]. pose proof (step_polling s e Hp) as Hp'.
    pose proof (step_polls_left s e Hp) as Hl.
    destruct (IH _ Hp') as [Hq Hm]. split; [done|].
    unfold timeouts in *. cbn [List.filter].
    destruct (is_timeout e); cbn [length] in *; lia.
Qed.

(** X24. The callback of [detectABP] is called at most once, whatever the
    images and the timeouts do; it is called as soon as three timeouts have
    fired, that is at the latest 500 + 1000 + 2000 = 3500 ms after the call
    of [detectABP]; and as long as it is not called a timeout is set. *)
Theorem detectABP_calls_back_once (es : list event) :
  let s := run es in
  length (calls s) <= 1 /\
  (0 <= waited s <= 3500)%Z /\
  (calls s = [] <-> is_Some (timer s)) /\
  (3 <= timeouts es -> length (calls s) = 1).
Proof.
  cbn zeta. unfold run.
  destruct (fold_polling es start start_polling) as [Hp Hl].
  set (s := fold_left step es start) in *.
  assert (polls_left start = 3) as H3 by reflexivity. rewrite H3 in Hl.
  split; [|split; [|split]].
  - destruct Hp as [(-> & _)|(-> & _)]; cbn; lia.
  - destruct Hp as [(_ & [[_ ->]|[[_ ->]|[_ ->]]])|(_ & _ & [->|[->| ->]])]; lia.
  - destruct Hp as [(Hc & [[Ht _]|[[Ht _]|[Ht _]]])|(Hc & Ht & _)];
      rewrite Ht; split; try done; try (by intros [? ?]);
      intros Hn; by rewrite Hn in Hc.
  - intros Ht.
    destruct Hp as [(_ & [[Hs _]|[[Hs _]|[Hs _]]])|(Hc & _)]; [..|done];
      unfold polls_left in Hl; rewrite Hs in Hl; cbn in Hl; lia.
Qed.

Lemma step_consistent s e : consistent s -> consistent (step s e).
Proof.
  intros Hcons. pose proof Hcons as (Hr & H1 & H2 & Hd & Hc).
  destruct e; cbn [step].
  5: { destruct (timer s) as [t|]; [|exact Hcons].
       unfold consistent, beforeCheck.
       cbn [checksRemain detected error1 error2 img1_pending img2_pending calls].
       destruct ((checksRemain s =? 0)%Z || (1000 <? t)%Z);
         cbn [checksRemain detected error1 error2 img1_pending img2_pending calls];
         split_and!; try done.
       intros b [Hb|Hb]%elem_of_app Ht; [exact (Hc b Hb Ht)|].
       apply list_elem_of_singleton in Hb. subst b.
       apply andb_true_iff in Ht as [Hz Hdt]. apply Z.eqb_eq in Hz. done. }
  1,2: destruct (img1_pending s) eqn:Hp1; [|exact Hcons].
  3,4: destruct (img2_pending s) eqn:Hp2; [|exact Hcons].
  all: clear Hcons;
    assert (forall b, b ∈ calls s -> b = true -> False) as Hno
      by (intros b Hb Ht; destruct (Hc b Hb Ht) as [Hz _];
          rewrite Hr in Hz; destruct (img1_pending s), (img2_pending s);
          cbn in Hz; try lia; done);
    destruct s as [d c e1 e2 p1 p2 t cl w];
    cbn [checksRemain detected error1 error2 img1_pending img2_pending calls] in *;
    subst; try specialize (H1 eq_refl); try specialize (H2 eq_refl); subst;
    unfold consistent, checkImages, set_error1, set_error2;
    cbn [checksRemain detected error1 error2 img1_pending img2_pending calls timer waited].
  all: try (destruct p1); try (destruct p2);
       try specialize (H1 eq_refl); try specialize (H2 eq_refl); subst;
       try (destruct e1); try (destruct e2); vm_compute; split_and!; try done.
  all: intros x Hx Ht; destruct (Hno x Hx Ht).
Qed.

Lemma run_consistent es : consistent (run es).
Proof.
  unfold run.
  assert (consistent start) as H0.
  { unfold consistent. cbn. split_and!; try done. intros b Hb. by apply elem_of_nil in Hb. }
  revert H0. generalize start.
  induction es as [|e r IH]; intros s Hs; [done|].
  cbn [fold_left]. by apply IH, step_consistent.
Qed.



(** X26. While the callback is not called: once both images have fired,
    the next timeout calls it, with [true] exactly if the first image loaded
    and the second one failed; and while an image is still awaited, the
    first two timeouts only set the next one, and the third one gives up and
    calls the callback with [false]. *)
Theorem detectABP_decides (es : list event) :
  let s := run es in
  calls s = [] ->
  (img1_pending s = false -> img2_pending s = false ->
   calls (step s Timeout) = [negb (error1 s) && error2 s] /\
   timer (step s Timeout) = None) /\
  (img1_pending s = true \/ img2_pending s = true ->
   calls (step s Timeout) = (if (waited s <? 1500)%Z then [] else [false])).
Proof.
  cbn zeta. intros Hc.
  destruct (run_consistent es) as (Hr & H1 & H2 & Hd & _).
  destruct (fold_polling es start start_polling) as [Hp _].
  fold (run es) in Hp.
  destruct Hp as [(_ & Ht)|(Hlen & _)]; [|by rewrite Hc in Hlen].
  split.
  - intros Hp1 Hp2. rewrite Hp1, Hp2 in Hr. cbn in Hr.
    rewrite Hr in Hd. cbn in Hd.
    destruct Ht as [[Ht _]|[[Ht _]|[Ht _]]]; cbn [step]; rewrite Ht;
      unfold beforeCheck; cbn [checksRemain detected calls]; rewrite Hr, Hc, Hd;
      cbn; done.
  - intros Hpend.
    assert (checksRemain (run es) <> 0)%Z as Hnz.
    { rewrite Hr. destruct Hpend as [-> | ->];
        destruct (img1_pending _), (img2_pending _); cbn; lia. }
    apply Z.eqb_neq in Hnz.
    destruct Ht as [[Ht Hw]|[[Ht Hw]|[Ht Hw]]]; cbn [step]; rewrite Ht, Hw;
      unfold beforeCheck; cbn [checksRemain detected calls timer];
      rewrite Hnz, Hc; reflexivity.
Qed.

Lemma detectABP_decides_witness :
  calls (run [Img1Load; Img2Error]) = [] /\
  calls (step (run [Img1Load; Img2Error]) Timeout) = [true].
Proof.
  split; [reflexivity|].
  exact (proj1 (proj1 (detectABP_decides [Img1Load; Img2Error] eq_refl)
                  eq_refl eq_refl)).
Defined.

End AbpFacts.

(** ** More on the bootstrap *)

Section BootstrapMore.
Import JsString Js Dom Placement Bootstrap.

Implicit Types (w : world) (s : surroundings).

Lemma load_begin_effect c p w :
  scripts (load_begin c p w).2
  = scripts w ++ [fetch_request (load_begin c p w).1
                    (from_option Dom.id "" (elements w !! target p)) c] /\
  images (load_begin c p w).2 = images w /\
  elements (load_begin c p w).2 = elements w /\
  log (load_begin c p w).2 = log w.
Proof.
  unfold load_begin.
  destruct (Keywords.detectKeywords (keyword_store w) (textContent w)) as [r st].
  done.
Qed.

(** What the callback of [elements.map] does for one element. *)
Lemma load_element_effect s force_load index ref w :
  let it := (load_element s force_load index ref w).1 in
  let w' := (load_element s force_load index ref w).2 in
  length (scripts w') = length (scripts w) + (if is_loading it then 1 else 0) /\
  (exists probes,
     images w' = images w ++ probes /\
     (probes = [] \/
      (length probes = 2 /\ index = 0 /\ force_load = false))) /\
  length (elements w') = length (elements w).
Proof.
  cbn zeta. unfold load_element.
  destruct (elements w !! ref) as [el|];
    [|split_and!; [cbn; lia|exists []; split; [by rewrite app_nil_r|by left]|done]].
  destruct (from_element ref el) as [[el' out] placement].
  set (w1 := World (<[ref:=el']> (elements w)) (textContent w) (keyword_store w)
               (log w ++ out) (scripts w) (images w)).
  assert (exists probes,
            images (if (index =? 0)%nat && bool_decide (is_Some placement)
                       && negb force_load
                    then detectABP s ABP_DETECTION_PX w1 else w1)
            = images w ++ probes /\
            (probes = [] \/ (length probes = 2 /\ index = 0 /\ force_load = false)))
    as Himg.
  { destruct ((index =? 0)%nat && bool_decide (is_Some placement)
              && negb force_load) eqn:Hc.
    - apply andb_true_iff in Hc as [[Hi _]%andb_true_iff Hf].
      apply Nat.eqb_eq in Hi. apply negb_true_iff in Hf.
      eexists. split; [reflexivity|]. right. done.
    - exists []. split; [by rewrite app_nil_r|by left]. }
  assert (scripts (if (index =? 0)%nat && bool_decide (is_Some placement)
                      && negb force_load
                   then detectABP s ABP_DETECTION_PX w1 else w1) = scripts w
          /\ length (elements (if (index =? 0)%nat
                                  && bool_decide (is_Some placement)
                                  && negb force_load
                               then detectABP s ABP_DETECTION_PX w1 else w1))
             = length (elements w)) as [Hscr Hel].
  { destruct (_ && _ && _); cbn; by rewrite length_insert. }
  set (w2 := if (index =? 0)%nat && bool_decide (is_Some placement)
                && negb force_load
             then detectABP s ABP_DETECTION_PX w1 else w1) in *.
  destruct placement as [p|]; [|cbn; rewrite Hscr; split_and!; [lia|done..]].
  destruct (force_load || negb (load_manually p));
    [|cbn; rewrite Hscr; split_and!; [lia|done..]].
  destruct (load_begin_effect (clock_at s index) p w2) as (Hs & Hi & He & _).
  destruct (load_begin (clock_at s index) p w2) as [p' w3]. cbn [fst snd] in *.
  rewrite Hs, Hi, He, length_app, Hscr. cbn. split_and!; [lia|done..].
Qed.

Lemma map_elements_effect s force_load index refs w :
  let its := (map_elements s force_load index refs w).1 in
  let w' := (map_elements s force_load index refs w).2 in
  length its = length refs /\
  length (scripts w') = length (scripts w) + loading_count its /\
  (exists probes,
     images w' = images w ++ probes /\
     (probes = [] \/
      (length probes = 2 /\ index = 0 /\ force_load = false))) /\
  length (elements w') = length (elements w).
Proof.
  cbn zeta. revert index w.
  induction refs as [|ref rest IH]; intros index w.
  - cbn. split_and!; [done|unfold loading_count; cbn; lia| |done].
    exists []. split; [by rewrite app_nil_r|by left].
  - cbn [map_elements].
    pose proof (load_element_effect s force_load index ref w) as (Hs & Hi & He).
    destruct (load_element s force_load index ref w) as [it w1].
    cbn [fst snd] in *.
    specialize (IH (S index) w1) as (Hl' & Hs' & Hi' & He').
    destruct (map_elements s force_load (S index) rest w1) as [its w2].
    cbn [fst snd] in *. unfold loading_count in *. cbn [List.filter length].
    split_and!.
    + lia.
    + destruct (is_loading it); cbn [length]; lia.
    + destruct Hi as (pr & Hpr & Hcase), Hi' as (pr' & Hpr' & Hcase').
      destruct Hcase' as [->|(_ & Hfalse & _)]; [|lia].
      exists pr. split; [|exact Hcase]. by rewrite Hpr', Hpr, app_nil_r.
    + lia.
Qed.

(** X27. When [load_placements] returns, the array that it gives to
    [Promise.all] has one entry for each marker element, and the number of
    scripts that it has appended, one request each, is the number of entries
    that are promises of a [load()]: no marker gets two requests and no
    request is made without an entry. *)
Theorem load_placements_one_request (s : surroundings) (force_load : bool)
    (w : world) (items : list item) (w' : world) :
  load_placements s force_load w = (Returned items, w') ->
  length items = length (querySelectorAll_markers w) /\
  0 < length items /\
  length (scripts w') = length (scripts w) + loading_count items /\
  loading_count items <= length items.
Proof.
  unfold load_placements.
  destruct (length (querySelectorAll_markers w) =? 0)%nat eqn:Hz; [done|].
  apply Nat.eqb_neq in Hz.
  pose proof (map_elements_effect s force_load 0 (querySelectorAll_markers w) w)
    as (Hl & Hs & _).
  destruct (map_elements _ _ _ _ _) as [its w2]. cbn [fst snd] in *.
  intros [= <- <-]. split_and!; [done|lia|done|].
  unfold loading_count. apply List.filter_length_le.
Qed.

Lemma load_placements_one_request_witness :
  exists items w',
    load_placements Sample.surroundings false Sample.marked_page
    = (Returned items, w') /\
    length (scripts w') = length (scripts Sample.marked_page) + loading_count items.
Proof.
  destruct (load_placements Sample.surroundings false Sample.marked_page)
    as [[items|e] w'] eqn:H; [|vm_compute in H; discriminate].
  exists items, w'. split; [reflexivity|].
  exact (proj1 (proj2 (proj2 (load_placements_one_request _ _ _ _ _ H)))).
Defined.

(** X28. The probe for the Acceptable Ads list is started at most once by
    a call of [load_placements], with its two image requests, and never by a
    forced call: the manual [load()] leaves the images as they are. *)
Theorem load_placements_probes_once (s : surroundings) (force_load : bool)
    (w : world) :
  let w' := (load_placements s force_load w).2 in
  (images w' = images w \/ length (images w') = length (images w) + 2) /\
  (force_load = true -> images w' = images w) /\
  images (load s w).2 = images w.
Proof.
  assert (forall f w0,
            let w' := (load_placements s f w0).2 in
            (images w' = images w0 \/
             length (images w') = length (images w0) + 2) /\
            (f = true -> images w' = images w0)) as H.
  { intros f w0. cbn zeta. unfold load_placements.
    destruct (length (querySelectorAll_markers w0) =? 0)%nat;
      [split; [by left|done]|].
    pose proof (map_elements_effect s f 0 (querySelectorAll_markers w0) w0)
      as (_ & _ & (probes & Hp & Hcase) & _).
    destruct (map_elements _ _ _ _ _) as [its w2]. cbn [fst snd] in *.
    rewrite Hp. destruct Hcase as [->|(Hlen & _ & Hf)].
    - rewrite app_nil_r. split; [by left|done].
    - split; [right; rewrite length_app; lia|]. intros Ht. congruence. }
  cbn zeta. destruct (H force_load w) as [H1 H2]. split; [exact H1|].
  split; [exact H2|]. unfold load.
  match goal with |- context [load_placements s true ?w0] =>
    destruct (H true w0) as [_ Hf]; specialize (Hf eq_refl);
    destruct (load_placements s true w0) as [[its|e] w3]
  end; exact Hf.
Qed.








(** X30. Whatever the page holds and whatever the scripts do, [wait] is
    never rejected: it is pending as long as the promise of [Promise.all]
    is, it is fulfilled with the array of [Promise.all] when that is
    fulfilled, and with the empty array when that is rejected; and an array
    that it is fulfilled with holds [undefined] and [null] only. *)
Theorem wait_settles (parse_html : string -> list node) (s : surroundings)
    (w : world) (events : list (nat * script_outcome)) :
  let pg := wait_run parse_html s w events in
  is_rejected (wait pg) = false /\
  wait pg = wait_of (all pg) /\
  forall vs, wait pg = Fulfilled vs -> Forall no_placement vs.
Proof.
  cbn zeta. split_and!.
  - rewrite wait_run_wait. by destruct (all _).
  - apply wait_run_wait.
  - apply wait_values.
Qed.

(** *** The page after a [load()] has settled *)

Lemma load_show_dom_class p el v :
  truthy v = true ->
  className (load_show_dom p el v) = trim (className el +:+ " loaded").
Proof.
  intros Hv. unfold load_show_dom.
  destruct v as [| |b|z|str|props|n]; try done; rewrite Hv; cbn [negb];
    try destruct (applyStyles p n);
    unfold className, appendChild, removeChildren, set_className, setAttribute;
    cbn [attrs]; by rewrite lookup_insert_eq.
Qed.

Lemma load_show_returned_dom p el v el' :
  load_show p el v = Returned el' -> load_show_dom p el v = el'.
Proof.
  unfold load_show, load_show_dom.
  destruct v as [| |b|z|str|props|n]; try done;
    destruct (negb (truthy _)); try done.
  destruct (applyStyles p n); [|done]. cbn [bind]. by intros [= <-].
Qed.

(** Once a [load()] has had an ad to show, its target has the class
    [loaded] on the page, whether the promise is fulfilled or the styling
    has thrown: a later [load_placements] passes it by. *)
Lemma load_settle_loaded p element w el :
  elements w !! target p = Some el ->
  truthy element = true ->
  loaded_at (load_settle p element w).2 (target p).
Proof.
  intros Hel Hv. unfold load_settle. rewrite Hel.
  assert (target p < length (elements w)) as Hlt
    by (by eapply lookup_lt_Some).
  exists (load_show_dom p el element). split.
  - destruct (load_show p el element) as [el'|e] eqn:Hs; cbn [snd elements].
    + rewrite (load_show_returned_dom _ _ _ _ Hs).
      by apply list_lookup_insert_eq.
    + by apply list_lookup_insert_eq.
  - rewrite (load_show_dom_class _ _ _ Hv). apply loaded_class_included.
Qed.

End BootstrapMore.
